(** * CVision (app.py): resume parser and JD comparison

    A shallow embedding of [src/app.py].  Python [str] values are sequences
    of Unicode code points, so a string is a [list N] here; the operations of
    [str] the program uses ([in], [split], [replace], [strip], [splitlines],
    [join], [endswith], slicing, [format]) are written out as functions on
    such lists.  Exceptions are values of [result]; the file system, the
    Streamlit screen and the widgets' return values are explicit state; the
    operating system's answer to [open], the document loaders and the model
    are parameters. *)

From Stdlib Require Import NArith List String Ascii Lia Bool.
From stdpp Require Import base option list gmap.
Import ListNotations.

Local Open Scope N_scope.

(** ** Python strings *)

Module Py.

(** A character is a code point; a [str] is a list of them. *)
Definition char : Type := N.
Definition str : Type := list char.

(** *** Source literals

    The source file is UTF-8.  [u] reads a literal the way the Python
    compiler does: it decodes the bytes of the literal into code points. *)

Fixpoint utf8_decode (bs : list N) : str :=
  match bs with
  | [] => []
  | b0 :: r0 =>
    if b0 <? 0x80 then b0 :: utf8_decode r0
    else
      match r0 with
      | [] => []
      | b1 :: r1 =>
        if b0 <? 0xE0 then
          N.lor (N.shiftl (N.land b0 0x1F) 6) (N.land b1 0x3F) :: utf8_decode r1
        else
          match r1 with
          | [] => []
          | b2 :: r2 =>
            if b0 <? 0xF0 then
              N.lor (N.shiftl (N.land b0 0x0F) 12)
                (N.lor (N.shiftl (N.land b1 0x3F) 6) (N.land b2 0x3F))
                :: utf8_decode r2
            else
              match r2 with
              | [] => []
              | b3 :: r3 =>
                N.lor (N.shiftl (N.land b0 0x07) 18)
                  (N.lor (N.shiftl (N.land b1 0x3F) 12)
                     (N.lor (N.shiftl (N.land b2 0x3F) 6) (N.land b3 0x3F)))
                  :: utf8_decode r3
              end
          end
      end
  end.

Definition u (s : string) : str :=
  utf8_decode (List.map N_of_ascii (list_ascii_of_string s)).

(** The escape ["\n"] of a Python literal. *)
Definition LF : char := 0x0A.

(** *** Truthiness, comparison *)

(** [bool(s)]: a string is truthy when it is not empty. *)
Definition truthy (s : str) : bool :=
  match s with [] => false | _ :: _ => true end.

Fixpoint eqb (s t : str) : bool :=
  match s, t with
  | [], [] => true
  | c :: s', d :: t' => (c =? d) && eqb s' t'
  | _, _ => false
  end.

(** [s.startswith(p)]. *)
Fixpoint startswith (p s : str) : bool :=
  match p, s with
  | [], _ => true
  | _ :: _, [] => false
  | c :: p', d :: s' => (c =? d) && startswith p' s'
  end.

(** [s.endswith(p)]: the last [len(p)] characters of [s] are [p]. *)
Definition endswith (p s : str) : bool :=
  (length p <=? length s)%nat && eqb (drop (length s - length p)%nat s) p.

(** [sub in s]: [sub] occurs at some position of [s]. *)
Fixpoint contains (sub s : str) : bool :=
  startswith sub s ||
  match s with
  | [] => false
  | _ :: s' => contains sub s'
  end.

(** The leftmost occurrence of [sep] in [s]: the text before it and the
    text after it ([s.partition(sep)] without the separator), [None] when
    there is none. *)
Fixpoint partition (sep s : str) : option (str * str) :=
  if startswith sep s then Some ([], drop (length sep) s)
  else
    match s with
    | [] => None
    | c :: s' =>
      match partition sep s' with
      | Some (a, b) => Some (c :: a, b)
      | None => None
      end
    end.

(** *** Exceptions *)

Inductive exn : Type :=
| ValueError
| IndexError
| KeyError
| OSError (errno : N)    (* raised by the operating system, as by [open] *)
| External (code : N).   (* raised by a library outside the program *)

Inductive result (A : Type) : Type :=
| Ok (a : A)
| Raise (e : exn).
Arguments Ok {A} a.
Arguments Raise {A} e.

Definition bind {A B} (r : result A) (k : A -> result B) : result B :=
  match r with
  | Ok a => k a
  | Raise e => Raise e
  end.

(** [l[i]] for a non-negative index: IndexError out of range. *)
Definition getitem {A} (l : list A) (i : nat) : result A :=
  match l !! i with
  | Some x => Ok x
  | None => Raise IndexError
  end.

(** *** split, replace, join *)

(** [s.split(sep, maxsplit)] for a non-empty [sep] and [maxsplit >= 0]:
    cut at the leftmost occurrences, at most [maxsplit] times. *)
Fixpoint split_max (sep : str) (maxsplit : nat) (s : str) : list str :=
  match maxsplit with
  | O => [s]
  | S n =>
    match partition sep s with
    | Some (a, b) => a :: split_max sep n b
    | None => [s]
    end
  end.

(** [s.split(sep, maxsplit)]: an empty separator is a ValueError. *)
Definition split_n (sep : str) (maxsplit : nat) (s : str) : result (list str) :=
  match sep with
  | [] => Raise ValueError
  | _ :: _ => Ok (split_max sep maxsplit s)
  end.

(** [s.split(sep)]: no limit on the number of cuts.  A cut consumes at
    least one character, so [len(s)] cuts are never exceeded. *)
Definition split (sep : str) (s : str) : result (list str) :=
  split_n sep (length s) s.

(** [s.replace(old, new, count)] for a non-empty [old]. *)
Fixpoint replace_count (old new : str) (count : nat) (s : str) : str :=
  match count with
  | O => s
  | S n =>
    match partition old s with
    | Some (a, b) => a ++ new ++ replace_count old new n b
    | None => s
    end
  end.

(** [s.replace(old, new)]: every non-overlapping occurrence, leftmost
    first.  With an empty [old], [new] is put before every character and at
    the end. *)
Definition replace (old new : str) (s : str) : str :=
  match old with
  | [] => new ++ flat_map (fun c => c :: new) s
  | _ :: _ => replace_count old new (length s) s
  end.

(** [sep.join(l)]. *)
Fixpoint join (sep : str) (l : list str) : str :=
  match l with
  | [] => []
  | [x] => x
  | x :: l' => x ++ sep ++ join sep l'
  end.

(** *** strip and splitlines *)

(** [c.isspace()], the set [str.strip()] removes (CPython's
    [_PyUnicode_IsWhitespace]). *)
Definition isspace (c : char) : bool :=
  ((0x09 <=? c) && (c <=? 0x0D)) || ((0x1C <=? c) && (c <=? 0x20)) ||
  (c =? 0x85) || (c =? 0xA0) || (c =? 0x1680) ||
  ((0x2000 <=? c) && (c <=? 0x200A)) ||
  (c =? 0x2028) || (c =? 0x2029) || (c =? 0x202F) || (c =? 0x205F) ||
  (c =? 0x3000).

(** The line boundaries of [str.splitlines()] (CPython's
    [_PyUnicode_IsLinebreak]). *)
Definition islinebreak (c : char) : bool :=
  ((0x0A <=? c) && (c <=? 0x0D)) || ((0x1C <=? c) && (c <=? 0x1E)) ||
  (c =? 0x85) || (c =? 0x2028) || (c =? 0x2029).

(** [c in chars]. *)
Definition mem (c : char) (chars : str) : bool :=
  existsb (N.eqb c) chars.

Fixpoint lstrip_by (p : char -> bool) (s : str) : str :=
  match s with
  | [] => []
  | c :: s' => if p c then lstrip_by p s' else s
  end.

Definition rstrip_by (p : char -> bool) (s : str) : str :=
  rev (lstrip_by p (rev s)).

Definition strip_by (p : char -> bool) (s : str) : str :=
  rstrip_by p (lstrip_by p s).

(** [s.strip()]. *)
Definition strip (s : str) : str := strip_by isspace s.

(** [s.strip(chars)]. *)
Definition strip_chars (chars : str) (s : str) : str :=
  strip_by (fun c => mem c chars) s.

(** [s.splitlines()]: [cur] is the line read so far.  A line ends at a
    line boundary, ["\r\n"] counting as one; the text after the last
    boundary is a line only when it is not empty. *)
Fixpoint splitlines_from (cur : str) (s : str) : list str :=
  match s with
  | [] => match cur with [] => [] | _ :: _ => [cur] end
  | c :: s' =>
    if islinebreak c then
      cur ::
      match s' with
      | d :: s'' =>
        if (c =? 0x0D) && (d =? 0x0A) then splitlines_from [] s''
        else splitlines_from [] s'
      | [] => splitlines_from [] s'
      end
    else splitlines_from (cur ++ [c]) s'
  end.

Definition splitlines (s : str) : list str := splitlines_from [] s.

End Py.

Import Py.

(** ** The cleaning function *)

(** [
def clean_text_block(text: str) -> str:
    text = text.replace("###", "").replace("##", "").strip()
    lines = [line.strip(" -•") for line in text.splitlines() if line.strip()]
    return "\n".join(lines)
] *)
Definition clean_text_block (text : str) : str :=
  let text := strip (replace (u "##") (u "") (replace (u "###") (u "") text)) in
  let lines :=
    List.map (strip_chars (u " -•"))
      (List.filter (fun line => truthy (strip line)) (splitlines text)) in
  join [LF] lines.

(** ** The prompt *)

(** [PROMPT_TEMPLATE], the triple-quoted literal of the source. *)
Definition PROMPT_TEMPLATE : str := u "
You are an expert resume parser and job match evaluator. 
Given the resume text and job description, do two tasks:

---

### 1. Extract Resume Information
Present the resume details in a **professional Markdown layout** with sections:

### 👤 Personal Details
- **Name:** ...
- **Email:** ...
- **Phone:** ...
- **LinkedIn:** ...

### 🛠 Skills
- Skill1, Skill2, Skill3

### 🎓 Education
- Degree | Institute | Year

### 💼 Experience
- Role at Company (Duration)
- Short bullet point achievements

### 📂 Projects
- Project Name — short description

### 🏅 Certifications
- Certification Name — Issuer

### 🌐 Languages
- Language1, Language2

---

### 2. Compare Resume Skills with Job Description Skills
If job description is provided, add a section:

### 🔍 Resume vs Job Description Skills
- ✅ **Matching Skills:** list of skills found in both
- ❌ **Missing Skills (JD requires but resume lacks):** list of missing skills
- 💡 **Extra Skills (in resume but not in JD):** list of extra skills
- 📊 **Match Score:** percentage of JD skills that appear in resume

Rules:
- If no JD is provided, skip the comparison.
- Use bullet points for clarity.
- Keep it short, clean, and professional.

---

Resume text:
{text}

Job description:
{jd_text}
".

(** [str.format] with keyword arguments, which [PromptTemplate.format]
    applies to an f-string template: [{name}] is replaced by the argument [name]
    (KeyError without one), [{{] and [}}] stand for a brace, a lone brace is
    a ValueError.  [field] is the name read so far inside braces.  The
    fields are plain names; conversions and format specifications do not
    occur in the template. *)
Definition lookup_kwarg (name : str) (kwargs : list (str * str)) : result str :=
  match List.find (fun kv => eqb (fst kv) name) kwargs with
  | Some kv => Ok (snd kv)
  | None => Raise KeyError
  end.

Fixpoint format_from (kwargs : list (str * str)) (field : option str)
    (t : str) : result str :=
  match t with
  | [] =>
    match field with
    | None => Ok []
    | Some _ => Raise ValueError
    end
  | c :: t' =>
    match field with
    | Some name =>
      if c =? 0x7D then
        bind (lookup_kwarg name kwargs) (fun v =>
        bind (format_from kwargs None t') (fun r => Ok (v ++ r)))
      else format_from kwargs (Some (name ++ [c])) t'
    | None =>
      if c =? 0x7B then
        match t' with
        | d :: t'' =>
          if d =? 0x7B then
            bind (format_from kwargs None t'') (fun r => Ok (0x7B :: r))
          else format_from kwargs (Some []) t'
        | [] => Raise ValueError
        end
      else if c =? 0x7D then
        match t' with
        | d :: t'' =>
          if d =? 0x7D then
            bind (format_from kwargs None t'') (fun r => Ok (0x7D :: r))
          else Raise ValueError
        | [] => Raise ValueError
        end
      else bind (format_from kwargs None t') (fun r => Ok (c :: r))
    end
  end.

(** The module's [prompt], a [PromptTemplate] over [PROMPT_TEMPLATE] with
    the input variables [text] and [jd_text], and its [format]. *)
Definition prompt_format (text jd_text : str) : result str :=
  format_from [(u "text", text); (u "jd_text", jd_text)] None PROMPT_TEMPLATE.

(** The prompt builder of [main]:
    [prompt.format(text=full_text,
                   jd_text=jd_text if jd_text else "No JD provided")]. *)
Definition formatted_prompt (full_text jd_text : str) : result str :=
  prompt_format full_text
    (if truthy jd_text then jd_text else u "No JD provided").

(** ** The world of the program *)

(** [uploaded_file]: its [name] and the bytes of [getbuffer()]. *)
Record UploadedFile : Type := {
  name : str;
  getbuffer : list N
}.

(** A LangChain [Document]; the program reads [page_content] only. *)
Record Document : Type := {
  page_content : str
}.

(** The Streamlit calls of [main], in the order they are made. *)
Inductive widget : Type :=
| set_page_config (page_title page_icon layout : str)
| title (body : str)
| file_uploader (label : str) (type : list str)
| spinner (text : str)
| expander (label : str)
| text_area (label : str) (value placeholder : option str) (height : option N)
| button (label : str)
| markdown (body : str) (unsafe_allow_html : bool)
| subheader (body : str)
| success (body : str)
| error (body : str)
| warning (body : str)
| info (body : str).

(** What the user did in the page: the values the input widgets return. *)
Record session : Type := {
  upload : option UploadedFile;   (* st.file_uploader(...) *)
  job_description : str;          (* st.text_area("Job Description", ...) *)
  analyze : bool                  (* st.button(...) *)
}.

(** The files on disk, by path, and the calls made to the screen so far. *)
Record world : Type := World {
  files : gmap str (list N);
  screen : list widget
}.

(** A computation of the program: it changes the world and returns a value
    or raises. *)
Definition M (A : Type) : Type := world -> world * result A.

#[global] Instance M_ret : MRet M := fun A a w => (w, Ok a).
#[global] Instance M_bind : MBind M := fun A B k c w =>
  match c w with
  | (w', Ok a) => k a w'
  | (w', Raise e) => (w', Raise e)
  end.

(** A pure step that may raise. *)
Definition lift {A} (r : result A) : M A := fun w => (w, r).

(** A call to Streamlit. *)
Definition st (c : widget) : M unit :=
  fun w => (World (files w) (screen w ++ [c]), Ok tt).

(** ** The program *)

Section App.

(** The operating system is outside the program.  [files] holds the
    content of every file, by the file itself: [realpath path] is the file
    that [path] names (two paths, or a link and its target, can name the
    same one).  [open_error fs path] is the OSError that
    [open(path, "wb")] raises on the files [fs], if it raises: a missing
    directory in [path], a name that is too long, a directory that cannot
    be written. *)
Variable realpath : str -> str.
Variable open_error : gmap str (list N) -> str -> option exn.

(** [with open(path, "wb") as f: f.write(data)]: when the file opens it
    holds [data] afterwards, created or overwritten; when [open] raises
    nothing is written.  The [write] to an open file is taken to
    succeed. *)
Definition write_file (path : str) (data : list N) : M unit :=
  fun w =>
    match open_error (files w) path with
    | Some e => (w, Raise e)
    | None => (World (<[realpath path := data]> (files w)) (screen w), Ok tt)
    end.

(** The document loaders of [langchain_community] and the chat model are
    outside the program: [X_load fs path] is [X(path).load()] on the files
    [fs], [llm_invoke p] is [llm.invoke(p).content]. *)
Variable PyPDFLoader_load : gmap str (list N) -> str -> result (list Document).
Variable Docx2txtLoader_load : gmap str (list N) -> str -> result (list Document).
Variable TextLoader_load : gmap str (list N) -> str -> result (list Document).
Variable llm_invoke : str -> result str.

Definition load (loader : gmap str (list N) -> str -> result (list Document))
    (path : str) : M (option (list Document)) :=
  fun w => (w, bind (loader (files w) path) (fun docs => Ok (Some docs))).

(** [
def load_resume_docs(uploaded_file):
    temp_path = f"temp_{uploaded_file.name}"
    with open(temp_path, "wb") as f:
        f.write(uploaded_file.getbuffer())

    if uploaded_file.name.endswith(".pdf"):
        loader = PyPDFLoader(temp_path)
    elif uploaded_file.name.endswith(".docx"):
        loader = Docx2txtLoader(temp_path)
    elif uploaded_file.name.endswith(".txt"):
        loader = TextLoader(temp_path)
    else:
        return None
    return loader.load()
]   [None] is Python's [None]. *)
Definition load_resume_docs (uploaded_file : UploadedFile)
    : M (option (list Document)) :=
  let temp_path := u "temp_" ++ name uploaded_file in
  write_file temp_path (getbuffer uploaded_file);;
  if endswith (u ".pdf") (name uploaded_file) then
    load PyPDFLoader_load temp_path
  else if endswith (u ".docx") (name uploaded_file) then
    load Docx2txtLoader_load temp_path
  else if endswith (u ".txt") (name uploaded_file) then
    load TextLoader_load temp_path
  else mret None.

(** [not docs]: [None] and the empty list are falsy. *)
Definition not_docs (docs : option (list Document)) : bool :=
  match docs with
  | None | Some [] => true
  | Some (_ :: _) => false
  end.

(** ["\n\n".join([d.page_content for d in docs])]. *)
Definition full_text_of (docs : list Document) : str :=
  join [LF; LF] (List.map page_content docs).

(** The comparison heading and the four markers. *)
Definition HEADING : str := u "### 🔍 Resume vs Job Description Skills".
Definition MATCHED : str := u "✅".
Definition MISSING : str := u "❌".
Definition EXTRA : str := u "💡".
Definition SCORE : str := u "📊".

(** [a, b = l]: ValueError unless [l] has two elements. *)
Definition unpack2 (l : list str) : result (str * str) :=
  match l with
  | [a; b] => Ok (a, b)
  | _ => Raise ValueError
  end.

(** Lines 136-140: the resume information and the comparison, [None] when
    the heading is absent. *)
Definition split_response (content : str) : result (str * option str) :=
  if contains HEADING content then
    bind (split_n HEADING 1 content) (fun parts =>
    bind (unpack2 parts) (fun '(resume_info, comparison) =>
    Ok (resume_info, Some comparison)))
  else Ok (content, None).

(** [comparison.split(a)[1].split(b)[0]]. *)
Definition between (a b : str) (comparison : str) : result str :=
  bind (split a comparison) (fun l =>
  bind (getitem l 1) (fun s =>
  bind (split b s) (fun l' => getitem l' 0))).

Definition matched_section : str -> result str := between MATCHED MISSING.
Definition missing_section : str -> result str := between MISSING EXTRA.
Definition extra_section : str -> result str := between EXTRA SCORE.

(** [comparison.split("📊")[1]]. *)
Definition score_section (comparison : str) : result str :=
  bind (split SCORE comparison) (fun l => getitem l 1).

(** One subsection of lines 150-172: shown when its marker is in the
    comparison. *)
Definition show_section (marker : str) (section : str -> result str)
    (heading : str) (panel : str -> widget) (comparison : str) : M unit :=
  if contains marker comparison then
    s ← lift (section comparison);
    st (subheader heading);;
    st (panel (clean_text_block s))
  else mret tt.

(** Lines 146-172: the comparison, shown when it is truthy. *)
Definition show_comparison (comparison : option str) : M unit :=
  match comparison with
  | Some comparison =>
    if truthy comparison then
      st (markdown (u "## 🔍 Resume vs Job Description Skills") false);;
      show_section MATCHED matched_section (u "✅ Matching Skills") success comparison;;
      show_section MISSING missing_section (u "❌ Missing Skills") error comparison;;
      show_section EXTRA extra_section (u "💡 Extra Skills") warning comparison;;
      show_section SCORE score_section (u "📊 Match Score") info comparison
    else mret tt
  | None => mret tt
  end.

(** Lines 134-172: what [main] does with [response.content]. *)
Definition show_response (content : str) : M unit :=
  '(resume_info, comparison) ← lift (split_response content);
  st (markdown (u "## 📌 Extracted Resume Information") false);;
  st (markdown resume_info true);;
  show_comparison comparison.

(** [main()], for one run of the script with the user's [session]. *)
Definition main (user : session) : M unit :=
  st (set_page_config (u "Resume Parser") (u "📄") (u "centered"));;
  st (title (u "📄 CVision - Resume Parser & JD Comparison"));;
  st (file_uploader (u "Upload resume") [u "pdf"; u "docx"; u "txt"]);;
  match upload user with
  | None => mret tt
  | Some uploaded_file =>
    st (spinner (u "Loading resume..."));;
    docs ← load_resume_docs uploaded_file;
    if not_docs docs then
      st (error (u "Unsupported file type."))
    else
      let docs := default [] docs in
      st (expander (u "📖 Resume Extracted Text Preview"));;
      let preview_text := take 4000 (full_text_of docs) in
      st (text_area (u "Preview (first 4000 chars)") (Some preview_text) None (Some 200));;
      st (expander (u "📝 Paste Job Description (Optional)"));;
      st (text_area (u "Job Description") None
            (Some (u "Paste the job description here...")) None);;
      let jd_text := job_description user in
      st (button (u "🚀 Analyze Resume"));;
      if analyze user then
        st (spinner (u "Sending to LLM..."));;
        let full_text := full_text_of docs in
        formatted_prompt ← lift (formatted_prompt full_text jd_text);
        content ← lift (llm_invoke formatted_prompt);
        show_response content
      else mret tt
  end.

End App.

(** ** Notions used in the statements *)

(** No proper suffix of [h] is a prefix of [h]: two occurrences of [h]
    never overlap. *)
Definition unbordered (h : str) : bool :=
  forallb (fun k => negb (startswith (drop k h) h)) (seq 1 (length h - 1)).

(** The text of [s] before the leftmost [sep], all of [s] without one. *)
Definition before (sep s : str) : str :=
  match partition sep s with
  | Some (a, _) => a
  | None => s
  end.

(** The text of [s] after the leftmost [a], up to the next [a] if there is
    one: the second field of [s] cut at [a]. *)
Definition text_after (a s : str) : option str :=
  match partition a s with
  | Some (_, r) => Some (before a r)
  | None => None
  end.

(** The part of that field before the leftmost [b]. *)
Definition text_between (a b s : str) : option str :=
  match text_after a s with
  | Some t => Some (before b t)
  | None => None
  end.

(** [l] begins with the character [c]. *)
Definition begins_with (c : char) (l : str) : bool :=
  match l with
  | d :: _ => d =? c
  | [] => false
  end.

(** The three fixed parts of [PROMPT_TEMPLATE]: before [{text}], between
    the two fields, after [{jd_text}]. *)
Definition PROMPT_HEAD : str := before (u "{text}") PROMPT_TEMPLATE.
Definition PROMPT_MID : str := [LF; LF] ++ u "Job description:" ++ [LF].
Definition PROMPT_TAIL : str := [LF].

(** [l] begins with none of the characters [line.strip(" -•")] removes. *)
Definition no_leading_bullet (l : str) : Prop :=
  begins_with 0x20 l = false /\ begins_with 0x2D l = false /\
  begins_with 0x2022 l = false.

(** [t] is the stretch of [comparison] right after the leftmost [m] that
    runs to the next [m] or [n], or to the end. *)
Definition section_cut (m n comparison t : str) : Prop :=
  exists a rest,
    comparison = a ++ m ++ t ++ rest /\
    contains m a = false /\ contains m t = false /\ contains n t = false /\
    (rest = [] \/ startswith m rest = true \/ startswith n rest = true).

(** A subsection is absent from the calls [shown]: neither its heading nor
    its panel. *)
Definition subsection_skipped (heading : str) (panel : str -> widget)
    (shown : list widget) : Prop :=
  ~ In (subheader heading) shown /\ forall body, ~ In (panel body) shown.

(** A subsection with the text [t] is among the calls [shown]. *)
Definition subsection_shown (heading : str) (panel : str -> widget)
    (t : str) (shown : list widget) : Prop :=
  exists l1 l2,
    shown = l1 ++ [subheader heading; panel (clean_text_block t)] ++ l2.

(** A subsection follows its own split: with the marker in the comparison
    its expression [section] returns the stretch after the leftmost
    [marker] up to the next [marker] or [next], or to the end, and the
    subsection is shown with it; without the marker the subsection is
    absent. *)
Definition subsection_rule (marker next : str) (section : str -> result str)
    (heading : str) (panel : str -> widget)
    (comparison : str) (shown : list widget) : Prop :=
  if contains marker comparison then
    exists t, section comparison = Ok t /\
              section_cut marker next comparison t /\
              subsection_shown heading panel t shown
  else subsection_skipped heading panel shown.

(** [l] holds no line boundary. *)
Definition no_linebreak (l : str) : Prop :=
  Forall (fun c => islinebreak c = false) l.

(** None of the four markers occurs in [x]. *)
Definition marker_free (x : str) : bool :=
  forallb (fun m => negb (contains m x)) [MATCHED; MISSING; EXTRA; SCORE].

(** The path [load_resume_docs] writes the upload to. *)
Definition temp_path (f : UploadedFile) : str := u "temp_" ++ name f.

(** The calls every run of [main] starts with. *)
Definition page_top : list widget :=
  [ set_page_config (u "Resume Parser") (u "📄") (u "centered");
    title (u "📄 CVision - Resume Parser & JD Comparison");
    file_uploader (u "Upload resume") [u "pdf"; u "docx"; u "txt"] ].

(** The calls of one subsection whose text is [text]; none when the marker
    is absent. *)
Definition rendered_section (heading : str) (panel : str -> widget)
    (text : option str) : list widget :=
  match text with
  | Some t => [subheader heading; panel (clean_text_block t)]
  | None => []
  end.

(** The calls for a truthy comparison text. *)
Definition rendered_comparison (comparison : str) : list widget :=
  markdown (u "## 🔍 Resume vs Job Description Skills") false ::
  rendered_section (u "✅ Matching Skills") success
    (text_between MATCHED MISSING comparison) ++
  rendered_section (u "❌ Missing Skills") error
    (text_between MISSING EXTRA comparison) ++
  rendered_section (u "💡 Extra Skills") warning
    (text_between EXTRA SCORE comparison) ++
  rendered_section (u "📊 Match Score") info
    (text_after SCORE comparison).

(** The calls for the resume information. *)
Definition rendered_resume_info (resume_info : str) : list widget :=
  [ markdown (u "## 📌 Extracted Resume Information") false;
    markdown resume_info true ].

(** What lines 134-172 put on the screen for a response. *)
Definition rendered_response (content : str) : list widget :=
  match partition HEADING content with
  | Some (resume_info, comparison) =>
    rendered_resume_info resume_info ++
    (if truthy comparison then rendered_comparison comparison else [])
  | None => rendered_resume_info content
  end.

(** The calls between a successful load and the button. *)
Definition input_widgets (docs : list Document) : list widget :=
  [ expander (u "📖 Resume Extracted Text Preview");
    text_area (u "Preview (first 4000 chars)")
      (Some (take 4000 (full_text_of docs))) None (Some 200);
    expander (u "📝 Paste Job Description (Optional)");
    text_area (u "Job Description") None
      (Some (u "Paste the job description here...")) None;
    button (u "🚀 Analyze Resume") ].

(** What [load_resume_docs] returns for [f] when the files, the upload
    included, are [fs]. *)
Definition load_outcome
    (pdf docx txt : gmap str (list N) -> str -> result (list Document))
    (f : UploadedFile) (fs : gmap str (list N))
    : result (option (list Document)) :=
  let loaded r := bind r (fun docs => Ok (Some docs)) in
  if endswith (u ".pdf") (name f) then loaded (pdf fs (temp_path f))
  else if endswith (u ".docx") (name f) then loaded (docx fs (temp_path f))
  else if endswith (u ".txt") (name f) then loaded (txt fs (temp_path f))
  else Ok None.

(** What happens after the button was pressed, on the documents [docs]. *)
Definition analysis_outcome (llm : str -> result str) (docs : list Document)
    (jd_text : str) : list widget * result unit :=
  match formatted_prompt (full_text_of docs) jd_text with
  | Raise e => ([spinner (u "Sending to LLM...")], Raise e)
  | Ok p =>
    match llm p with
    | Raise e => ([spinner (u "Sending to LLM...")], Raise e)
    | Ok content =>
      (spinner (u "Sending to LLM...") :: rendered_response content, Ok tt)
    end
  end.

(** ** Sample runs

    Loaders, a model and two uploads to run the program on. *)

(** A loader that fails, one that finds no text, and one that returns the
    bytes of the file as one document. *)
Definition failing_loader (fs : gmap str (list N)) (path : str)
    : result (list Document) :=
  Raise (External 1).

Definition empty_loader (fs : gmap str (list N)) (path : str)
    : result (list Document) :=
  Ok [].

Definition plain_loader (fs : gmap str (list N)) (path : str)
    : result (list Document) :=
  match fs !! path with
  | Some data => Ok [ {| page_content := data |} ]
  | None => Raise (External 2)
  end.

(** Two pages of text, whatever the file. *)
Definition paged_loader (fs : gmap str (list N)) (path : str)
    : result (list Document) :=
  Ok [ {| page_content := u "John Doe" |};
       {| page_content := u "Python, SQL" |} ].

(** One flat directory: a path is its own file; a path with a ['/'] names
    a directory that is not there (errno 2), a name of more than 255
    characters is too long (errno 36). *)
Definition same_path (path : str) : str := path.

Definition flat_open_error (fs : gmap str (list N)) (path : str)
    : option exn :=
  if contains (u "/") path then Some (OSError 2)
  else if (255 <? length path)%nat then Some (OSError 36)
  else None.

(** A model that always answers [reply]. *)
Definition fixed_llm (reply : str) (prompt : str) : result str := Ok reply.

(** A model that always fails with [e]. *)
Definition fixed_failure (e : exn) (prompt : str) : result str := Raise e.


Definition nested_upload : UploadedFile :=
  {| name := u "a/b.png"; getbuffer := [0x89; 0x50; 0x4E; 0x47] |}.

Definition txt_upload : UploadedFile :=
  {| name := u "resume.txt"; getbuffer := u "John Doe, Python, SQL" |}.

Definition visit (f : UploadedFile) (jd_text : str) (pressed : bool)
    : session :=
  {| upload := Some f; job_description := jd_text; analyze := pressed |}.

Definition blank : world := World ∅ [].

(** ** Notions used in the further statements *)

(** [l] ends with the character [c]. *)
Definition ends_with (c : char) (l : str) : bool :=
  match last l with
  | Some d => d =? c
  | None => false
  end.

(** [l] ends with none of the characters [line.strip(" -•")] removes. *)
Definition no_trailing_bullet (l : str) : Prop :=
  ends_with 0x20 l = false /\ ends_with 0x2D l = false /\
  ends_with 0x2022 l = false.

(** [l] is a contiguous part of [s]. *)
Definition infix (l s : str) : Prop := exists x y, s = x ++ l ++ y.

(** ** Facts about the string operations *)

Module PyFacts.

(** The operations on small inputs, as Python evaluates them. *)
Example split_example :
  split (u "ab") (u "1ab2abab3") = Ok [u "1"; u "2"; u ""; u "3"] /\
  split_n (u ",") 1 (u "a,b,c") = Ok [u "a"; u "b,c"] /\
  split (u ",") (u "") = Ok [u ""] /\
  split (u "") (u "abc") = Raise ValueError.
Proof. repeat split; vm_compute; reflexivity. Qed.

Example replace_example :
  replace (u "###") (u "") (u "#### a ### b") = u "# a  b" /\
  replace (u "##") (u "") (u "## a # b") = u " a # b" /\
  replace (u "") (u "-") (u "ab") = u "-a-b-".
Proof. repeat split; vm_compute; reflexivity. Qed.

Example splitlines_example :
  splitlines (u "a" ++ [LF; LF] ++ u "b" ++ [0x0D; LF] ++ u "c" ++ [LF]) =
    [u "a"; u ""; u "b"; u "c"] /\
  splitlines (u "") = [] /\
  splitlines [LF] = [u ""] /\
  splitlines (u "a" ++ [0x0D] ++ u "b" ++ [0x2028] ++ u "c") =
    [u "a"; u "b"; u "c"].
Proof. repeat split; vm_compute; reflexivity. Qed.

Example strip_example :
  strip ([0x09] ++ u "  a b " ++ [LF]) = u "a b" /\
  strip_chars (u " -•") (u "- • x - ") = u "x" /\
  strip_chars (u " -•") ([0x09] ++ u "- x") = [0x09] ++ u "- x".
Proof. repeat split; vm_compute; reflexivity. Qed.

Example endswith_example :
  endswith (u ".pdf") (u "cv.pdf") = true /\
  endswith (u ".pdf") (u "cv.PDF") = false /\
  endswith (u ".docx") (u "x") = false /\
  contains (u "cd") (u "abcde") = true /\
  contains (u "ce") (u "abcde") = false.
Proof. repeat split; vm_compute; reflexivity. Qed.

Example clean_text_block_example :
  clean_text_block
    (u " **Matching Skills:** Python, SQL" ++ [LF] ++ u "- " ++ [LF]) =
  u "**Matching Skills:** Python, SQL" ++ [LF].
Proof. vm_compute; reflexivity. Qed.

Example format_example :
  format_from [(u "a", u "1")] None (u "x{a}y{{z}}") = Ok (u "x1y{z}") /\
  format_from [(u "a", u "1")] None (u "{b}") = Raise KeyError /\
  format_from [(u "a", u "1")] None (u "x}") = Raise ValueError /\
  format_from [(u "a", u "1")] None (u "{a") = Raise ValueError.
Proof. repeat split; vm_compute; reflexivity. Qed.

Lemma eqb_eq (s t : str) : eqb s t = true <-> s = t.
Proof.
  revert t; induction s as [|c s IH]; intros [|d t]; simpl; try easy.
  rewrite andb_true_iff, N.eqb_eq, IH. split.
  - intros [-> ->]; reflexivity.
  - intros [= -> ->]; auto.
Qed.

Lemma startswith_app (p r : str) : startswith p (p ++ r) = true.
Proof. induction p as [|c p IH]; simpl; [easy|]. now rewrite N.eqb_refl. Qed.

Lemma startswith_inv (p s : str) :
  startswith p s = true -> s = p ++ drop (length p) s.
Proof.
  revert s; induction p as [|c p IH]; intros [|d s]; simpl; try easy.
  rewrite andb_true_iff, N.eqb_eq. intros [-> H]. f_equal. now apply IH.
Qed.

(** A pattern no longer than [a] sees only [a]. *)
Lemma startswith_app_long (p a b : str) :
  (length p <= length a)%nat -> startswith p (a ++ b) = startswith p a.
Proof.
  revert a; induction p as [|c p IH]; intros [|d a]; simpl; try easy; try lia.
  intros H. rewrite IH by lia. reflexivity.
Qed.

(** A pattern that starts in [a] and runs past its end continues in [b]. *)
Lemma startswith_app_short (p a b : str) :
  (length a <= length p)%nat -> startswith p (a ++ b) = true ->
  startswith (drop (length a) p) b = true.
Proof.
  revert p; induction a as [|d a IH]; intros [|c p]; simpl; try easy; try lia.
  rewrite andb_true_iff. intros H [_ H']. apply IH; [lia|exact H'].
Qed.

Lemma contains_startswith (sub s : str) :
  contains sub s = false -> startswith sub s = false.
Proof. destruct s; simpl; rewrite orb_false_iff; tauto. Qed.

Lemma contains_cons (sub : str) c (s : str) :
  contains sub (c :: s) = false -> contains sub s = false.
Proof. simpl. rewrite orb_false_iff. tauto. Qed.

Lemma contains_nil (sub : str) : contains sub [] = false -> sub <> [].
Proof. intros H ->. discriminate. Qed.

(** [sub in s] exactly when [partition] finds an occurrence. *)
Lemma partition_None (sep s : str) :
  partition sep s = None <-> contains sep s = false.
Proof.
  induction s as [|c s IH]; simpl.
  - destruct (startswith sep []); simpl; split; congruence.
  - destruct (startswith sep (c :: s)); simpl; [split; congruence|].
    rewrite <- IH. destruct (partition sep s) as [[a b]|]; split; congruence.
Qed.

Lemma partition_Some (sep s : str) :
  contains sep s = true -> exists a b, partition sep s = Some (a, b).
Proof.
  intros H. destruct (partition sep s) as [[a b]|] eqn:E; [eauto|].
  apply partition_None in E. congruence.
Qed.

(** What [partition] returns: the text around an occurrence, and no
    occurrence starts earlier. *)
Lemma partition_inv (sep s a b : str) :
  partition sep s = Some (a, b) -> s = a ++ sep ++ b.
Proof.
  revert a; induction s as [|c s IH]; intros a; simpl.
  - destruct (startswith sep []) eqn:E; [|discriminate].
    intros [= <- <-]. now apply startswith_inv in E.
  - destruct (startswith sep (c :: s)) eqn:E.
    + intros [= <- <-]. now apply startswith_inv in E.
    + destruct (partition sep s) as [[a' b']|]; [|discriminate].
      intros [= <- <-]. simpl. f_equal. now apply IH.
Qed.

(** [sub in s] says that [s] is some text, [sub], and some text. *)
Lemma contains_spec (sub s : str) :
  contains sub s = true <-> exists a b, s = a ++ sub ++ b.
Proof.
  split.
  - intros H. apply partition_Some in H as (a & b & H).
    exists a, b. now apply partition_inv.
  - intros (a & b & ->). induction a as [|c a IH].
    + simpl app. destruct (sub ++ b) eqn:E; simpl; rewrite <- E;
        now rewrite startswith_app.
    + simpl. rewrite IH. apply orb_true_r.
Qed.


Lemma partition_length (sep s a b : str) :
  partition sep s = Some (a, b) ->
  length s = (length a + length sep + length b)%nat.
Proof.
  intros H. apply partition_inv in H. subst s. rewrite !length_app. lia.
Qed.

Lemma startswith_shorter (q h r : str) :
  (length q <= length h)%nat -> startswith q (h ++ r) = true ->
  startswith q h = true.
Proof. intros H. now rewrite startswith_app_long. Qed.

(** The leftmost occurrence of an unbordered [sep] after a text without
    one is the one written there. *)
Lemma partition_first (sep pre rest : str) :
  unbordered sep = true -> contains sep pre = false ->
  partition sep (pre ++ sep ++ rest) = Some (pre, rest).
Proof.
  intros Hu. induction pre as [|c pre IH]; intros Hc.
  - simpl app. pose proof (contains_nil _ Hc) as Hne.
    destruct sep as [|s0 sep]; [easy|]. 
    change (partition (s0 :: sep) ((s0 :: sep) ++ rest)) with
      (if startswith (s0 :: sep) ((s0 :: sep) ++ rest)
       then Some ([], drop (length (s0 :: sep)) ((s0 :: sep) ++ rest))
       else match partition (s0 :: sep) (sep ++ rest) with
            | Some (a, b) => Some (s0 :: a, b) | None => None end).
    rewrite startswith_app. now rewrite drop_app_length.
  - assert (startswith sep ((c :: pre) ++ sep ++ rest) = false) as E.
    { destruct (le_lt_dec (length sep) (length (c :: pre))) as [Hl|Hl].
      - rewrite startswith_app_long by exact Hl. now apply contains_startswith.
      - destruct (startswith sep ((c :: pre) ++ sep ++ rest)) eqn:E; [|easy].
        apply startswith_app_short in E; [|lia].
        apply startswith_shorter in E; [|rewrite length_drop; lia].
        unfold unbordered in Hu. rewrite forallb_forall in Hu.
        specialize (Hu (length (c :: pre))).
        rewrite E in Hu. simpl negb in Hu. 
        assert (false = true); [|easy]. apply Hu.
        apply in_seq. simpl length in *. lia. }
    simpl app in *. simpl partition. rewrite E.
    rewrite IH by (now apply contains_cons in Hc). reflexivity.
Qed.

(** [split]: the number of cuts allowed beyond [len(s)] does not matter. *)
Lemma split_max_fuel (c : char) (sep : str) (n m : nat) (s : str) :
  (length s <= n)%nat -> (length s <= m)%nat ->
  split_max (c :: sep) n s = split_max (c :: sep) m s.
Proof.
  revert m s; induction n as [|n IH]; intros [|m] s Hn Hm;
    try reflexivity.
  - destruct s; [reflexivity|simpl in Hn; lia].
  - destruct s; [reflexivity|simpl in Hm; lia].
  - cbn [split_max]. destruct (partition (c :: sep) s) as [[a b]|] eqn:E;
      [|reflexivity].
    apply partition_length in E. simpl length in E.
    f_equal. apply IH; lia.
Qed.

(** The equation of [s.split(sep)]: cut at the leftmost occurrence and
    split the rest. *)
Lemma split_unfold (c : char) (sep : str) (s : str) :
  split_max (c :: sep) (length s) s =
  match partition (c :: sep) s with
  | Some (a, b) => a :: split_max (c :: sep) (length b) b
  | None => [s]
  end.
Proof.
  destruct (partition (c :: sep) s) as [[a b]|] eqn:E.
  - pose proof (partition_length _ _ _ _ E) as Hl. simpl length in Hl.
    destruct (length s) as [|n] eqn:En; [lia|].
    cbn [split_max]. rewrite E. f_equal. apply split_max_fuel; lia.
  - destruct (length s); cbn [split_max]; [reflexivity|now rewrite E].
Qed.

Lemma contains_char_cons (m c : char) (y : str) :
  contains [m] (c :: y) = (m =? c) || contains [m] y.
Proof. simpl. now rewrite andb_true_r. Qed.

Lemma contains_char_app (m : char) (x y : str) :
  contains [m] (x ++ y) = contains [m] x || contains [m] y.
Proof.
  induction x as [|c x IH].
  - destruct y; reflexivity.
  - simpl app. rewrite !contains_char_cons, IH. now rewrite orb_assoc.
Qed.

Lemma partition_char (m : char) (x r : str) :
  contains [m] x = false -> partition [m] (x ++ m :: r) = Some (x, r).
Proof. intros H. now apply (partition_first [m] x r). Qed.

Lemma before_absent (sep s : str) : contains sep s = false -> before sep s = s.
Proof. intros H. apply partition_None in H. unfold before. now rewrite H. Qed.

Lemma before_char (m : char) (x r : str) :
  contains [m] x = false -> before [m] (x ++ m :: r) = x.
Proof. intros H. unfold before. now rewrite partition_char. Qed.

(** A marker that occurs once: the field after it runs to the end. *)
Lemma text_after_char (m : char) (x y : str) :
  contains [m] x = false -> contains [m] y = false ->
  text_after [m] (x ++ m :: y) = Some y.
Proof.
  intros Hx Hy. unfold text_after. rewrite partition_char by exact Hx.
  now rewrite before_absent.
Qed.

(** Two markers that occur once, in order: the text between them. *)
Lemma text_between_chars (m n : char) (x y z : str) :
  contains [m] x = false -> contains [m] (y ++ n :: z) = false ->
  contains [n] y = false ->
  text_between [m] [n] (x ++ m :: y ++ n :: z) = Some y.
Proof.
  intros Hx Hyz Hy. unfold text_between.
  rewrite text_after_char by assumption. now rewrite before_char.
Qed.

(** Four distinct one-character markers, each once and in order: every
    field is the text between its marker and the next. *)
Lemma four_markers (m1 m2 m3 m4 : char) (a b c d e : str) :
  List.NoDup [m1; m2; m3; m4] ->
  (forall m x, In m [m1; m2; m3; m4] -> In x [a; b; c; d; e] ->
               contains [m] x = false) ->
  let s := a ++ m1 :: b ++ m2 :: c ++ m3 :: d ++ m4 :: e in
  text_between [m1] [m2] s = Some b /\
  text_between [m2] [m3] s = Some c /\
  text_between [m3] [m4] s = Some d /\
  text_after [m4] s = Some e.
Proof.
  intros Hd Hfree s.
  assert (Hne : forall i j, (i < j < 4)%nat ->
            (nth i [m1; m2; m3; m4] 0 =? nth j [m1; m2; m3; m4] 0) = false).
  { intros i j Hij. apply N.eqb_neq. intros E.
    apply (proj1 (List.NoDup_nth [m1; m2; m3; m4] 0) Hd) in E;
      simpl length; lia. }
  assert (Hsym : forall i j, (j < i < 4)%nat ->
            (nth i [m1; m2; m3; m4] 0 =? nth j [m1; m2; m3; m4] 0) = false).
  { intros i j Hij. rewrite N.eqb_sym. now apply Hne. }
  pose proof (Hne 0%nat 1%nat ltac:(lia)) as H12. pose proof (Hne 0%nat 2%nat ltac:(lia)) as H13.
  pose proof (Hne 0%nat 3%nat ltac:(lia)) as H14. pose proof (Hne 1%nat 2%nat ltac:(lia)) as H23.
  pose proof (Hne 1%nat 3%nat ltac:(lia)) as H24. pose proof (Hne 2%nat 3%nat ltac:(lia)) as H34.
  pose proof (Hsym 1%nat 0%nat ltac:(lia)) as H21. pose proof (Hsym 2%nat 0%nat ltac:(lia)) as H31.
  pose proof (Hsym 3%nat 0%nat ltac:(lia)) as H41. pose proof (Hsym 2%nat 1%nat ltac:(lia)) as H32.
  pose proof (Hsym 3%nat 1%nat ltac:(lia)) as H42. pose proof (Hsym 3%nat 2%nat ltac:(lia)) as H43.
  cbn [nth] in *. clear Hne Hsym.
  assert (Hf : forall m x, In m [m1; m2; m3; m4] -> In x [a; b; c; d; e] ->
            contains [m] x = false) by exact Hfree.
  pose proof (fun m Hm => Hf m a Hm ltac:(simpl; tauto)) as Ha.
  pose proof (fun m Hm => Hf m b Hm ltac:(simpl; tauto)) as Hb.
  pose proof (fun m Hm => Hf m c Hm ltac:(simpl; tauto)) as Hc.
  pose proof (fun m Hm => Hf m d Hm ltac:(simpl; tauto)) as Hdd.
  pose proof (fun m Hm => Hf m e Hm ltac:(simpl; tauto)) as He.
  assert (I1 : In m1 [m1; m2; m3; m4]) by (simpl; tauto).
  assert (I2 : In m2 [m1; m2; m3; m4]) by (simpl; tauto).
  assert (I3 : In m3 [m1; m2; m3; m4]) by (simpl; tauto).
  assert (I4 : In m4 [m1; m2; m3; m4]) by (simpl; tauto).
  repeat split.
  - apply text_between_chars; auto.
    rewrite !contains_char_app, !contains_char_cons, !contains_char_app,
      !contains_char_cons, !contains_char_app, !contains_char_cons.
    now rewrite Hb, Hc, Hdd, He, H12, H13, H14 by assumption.
  - subst s. change (a ++ m1 :: b ++ m2 :: c ++ m3 :: d ++ m4 :: e)
      with (a ++ (m1 :: b) ++ m2 :: c ++ m3 :: d ++ m4 :: e).
    rewrite app_assoc. apply text_between_chars; auto.
    + rewrite contains_char_app, contains_char_cons.
      now rewrite Ha, Hb, H21 by assumption.
    + rewrite !contains_char_app, !contains_char_cons, !contains_char_app,
        !contains_char_cons.
      now rewrite Hc, Hdd, He, H23, H24 by assumption.
  - subst s. change (a ++ m1 :: b ++ m2 :: c ++ m3 :: d ++ m4 :: e)
      with (a ++ (m1 :: b) ++ (m2 :: c) ++ m3 :: d ++ m4 :: e).
    rewrite 2!app_assoc. apply text_between_chars; auto.
    + rewrite !contains_char_app, !contains_char_cons.
      now rewrite Ha, Hb, Hc, H31, H32 by assumption.
    + rewrite !contains_char_app, !contains_char_cons.
      now rewrite Hdd, He, H34 by assumption.
  - subst s. change (a ++ m1 :: b ++ m2 :: c ++ m3 :: d ++ m4 :: e)
      with (a ++ (m1 :: b) ++ (m2 :: c) ++ (m3 :: d) ++ m4 :: e).
    rewrite 3!app_assoc. apply text_after_char; auto.
    rewrite !contains_char_app, !contains_char_cons.
    now rewrite Ha, Hb, Hc, Hdd, H41, H42, H43 by assumption.
Qed.

(** *** strip *)

Lemma lstrip_by_head (p : char -> bool) (s : str) :
  match lstrip_by p s with
  | c :: _ => p c = false
  | [] => True
  end.
Proof.
  induction s as [|c s IH]; simpl; [exact I|].
  destruct (p c) eqn:E; [exact IH|exact E].
Qed.

Lemma lstrip_by_snoc (p : char -> bool) (x : str) (c : char) :
  lstrip_by p (x ++ [c]) =
  match lstrip_by p x with
  | [] => if p c then [] else [c]
  | y => y ++ [c]
  end.
Proof.
  induction x as [|d x IH]; simpl; [reflexivity|].
  destruct (p d); [exact IH|reflexivity].
Qed.

Lemma rstrip_by_cons (p : char -> bool) (c : char) (t : str) :
  rstrip_by p (c :: t) =
  match rstrip_by p t with
  | [] => if p c then [] else [c]
  | r => c :: r
  end.
Proof.
  unfold rstrip_by. simpl rev. rewrite lstrip_by_snoc.
  destruct (lstrip_by p (rev t)) as [|d y] eqn:E; simpl rev.
  - destruct (p c); reflexivity.
  - rewrite rev_app_distr. simpl. destruct (rev y ++ [d]) eqn:E'; [|reflexivity].
    now destruct (rev y).
Qed.

(** What [strip] leaves does not begin with a stripped character. *)
Lemma strip_by_head (p : char -> bool) (s : str) :
  match strip_by p s with
  | c :: _ => p c = false
  | [] => True
  end.
Proof.
  unfold strip_by. pose proof (lstrip_by_head p s) as H.
  destruct (lstrip_by p s) as [|c t]; [exact I|].
  rewrite rstrip_by_cons. destruct (rstrip_by p t).
  - rewrite H. exact H.
  - exact H.
Qed.

Lemma strip_chars_begins (chars : str) (c : char) (s : str) :
  mem c chars = true -> begins_with c (strip_chars chars s) = false.
Proof.
  intros Hc. unfold strip_chars.
  pose proof (strip_by_head (fun c => mem c chars) s) as H.
  destruct (strip_by _ s) as [|d t]; [reflexivity|]. simpl.
  destruct (N.eqb_spec d c) as [->|]; [congruence|reflexivity].
Qed.

Lemma lstrip_by_Forall (Q : char -> Prop) (p : char -> bool) (s : str) :
  Forall Q s -> Forall Q (lstrip_by p s).
Proof.
  induction 1 as [|c s Hc Hs IH]; simpl; [constructor|].
  destruct (p c); [exact IH|now constructor].
Qed.

Lemma strip_by_Forall (Q : char -> Prop) (p : char -> bool) (s : str) :
  Forall Q s -> Forall Q (strip_by p s).
Proof.
  intros H. unfold strip_by, rstrip_by.
  apply Forall_rev, lstrip_by_Forall, Forall_rev, lstrip_by_Forall, H.
Qed.

(** *** splitlines *)

Lemma splitlines_from_no_linebreak (n : nat) (s cur : str) :
  (length s <= n)%nat -> no_linebreak cur ->
  Forall no_linebreak (splitlines_from cur s).
Proof.
  revert s cur; induction n as [|n IH]; intros [|c s] cur Hn Hcur;
    simpl in Hn; try lia.
  - simpl. destruct cur; [constructor|]. constructor; [exact Hcur|constructor].
  - simpl. destruct cur; [constructor|]. constructor; [exact Hcur|constructor].
  - cbn [splitlines_from]. destruct (islinebreak c) eqn:E.
    + constructor; [exact Hcur|].
      destruct s as [|d s]; [apply IH; [simpl; lia|constructor]|].
      destruct ((c =? 13) && (d =? 10)); apply IH;
        simpl in *; try lia; constructor.
    + apply IH; [lia|]. apply Forall_app; split; [exact Hcur|].
      now repeat constructor.
Qed.

Lemma splitlines_no_linebreak (s : str) : Forall no_linebreak (splitlines s).
Proof.
  apply (splitlines_from_no_linebreak (length s)); [lia|constructor].
Qed.

Lemma splitlines_from_app (x cur s : str) :
  no_linebreak x -> splitlines_from cur (x ++ s) = splitlines_from (cur ++ x) s.
Proof.
  intros H; revert cur; induction H as [|c x Hc Hx IH]; intros cur.
  - now rewrite app_nil_r.
  - simpl app. cbn [splitlines_from]. rewrite Hc, IH.
    now rewrite <- app_assoc.
Qed.

(** The lines of ["\n".join(ls)] are among [ls] when no element of [ls]
    holds a line boundary. *)
Lemma splitlines_join (ls : list str) (l : str) :
  Forall no_linebreak ls -> In l (splitlines (join [LF] ls)) -> In l ls.
Proof.
  unfold splitlines. induction 1 as [|x ls Hx Hls IH]; [easy|].
  destruct ls as [|y ls].
  - simpl join. rewrite <- (app_nil_r x) at 1.
    rewrite splitlines_from_app by exact Hx. simpl.
    destruct x; simpl; tauto.
  - change (join [LF] (x :: y :: ls)) with (x ++ LF :: join [LF] (y :: ls)).
    rewrite splitlines_from_app by exact Hx. simpl app.
    cbn [splitlines_from]. change (islinebreak LF) with true. cbv iota.
    change (LF =? 13) with false. cbn [andb].
    intros [<-|Hin]; [now left|right].
    apply IH. now destruct (join [LF] (y :: ls)).
Qed.

Lemma no_linebreak_no_LF (x : str) : no_linebreak x -> contains [LF] x = false.
Proof.
  induction 1 as [|c x Hc Hx IH]; [reflexivity|].
  rewrite contains_char_cons, IH, orb_false_r.
  destruct (N.eqb_spec LF c) as [<-|]; [discriminate Hc|reflexivity].
Qed.

(** ["\n".join(ls).split("\n")] gives [ls] back, and [[""]] for no line. *)
Lemma split_join (ls : list str) :
  Forall no_linebreak ls ->
  split_max [LF] (length (join [LF] ls)) (join [LF] ls) =
  match ls with [] => [[]] | _ :: _ => ls end.
Proof.
  induction 1 as [|x ls Hx Hls IH]; [reflexivity|].
  rewrite split_unfold. destruct ls as [|y ls].
  - simpl join. apply no_linebreak_no_LF, partition_None in Hx.
    now rewrite Hx.
  - change (join [LF] (x :: y :: ls)) with (x ++ LF :: join [LF] (y :: ls)).
    rewrite partition_char by now apply no_linebreak_no_LF.
    now rewrite IH.
Qed.

End PyFacts.

(** ** Running the program *)

Section Runs.

Variable realpath : str -> str.
Variable open_error : gmap str (list N) -> str -> option exn.
Variable PyPDFLoader_load : gmap str (list N) -> str -> result (list Document).
Variable Docx2txtLoader_load : gmap str (list N) -> str -> result (list Document).
Variable TextLoader_load : gmap str (list N) -> str -> result (list Document).
Variable llm_invoke : str -> result str.

Import PyFacts.

Lemma bind_run {A B} (c : M A) (k : A -> M B) (w : world) :
  (c ≫= k) w =
  match c w with
  | (w', Ok a) => k a w'
  | (w', Raise e) => (w', Raise e)
  end.
Proof. reflexivity. Qed.

Lemma st_run (c : widget) (w : world) :
  st c w = (World (files w) (screen w ++ [c]), Ok tt).
Proof. reflexivity. Qed.

(** [s.split(sep)[0]] and [s.split(sep)[1]]. *)
Lemma split_item0 (c : char) (sep s : str) :
  bind (split (c :: sep) s) (fun l => getitem l 0) = Ok (before (c :: sep) s).
Proof.
  unfold split, split_n, bind, before. rewrite split_unfold.
  destruct (partition (c :: sep) s) as [[a b]|]; reflexivity.
Qed.

Lemma split_item1 (c : char) (sep s : str) :
  bind (split (c :: sep) s) (fun l => getitem l 1) =
  match text_after (c :: sep) s with
  | Some t => Ok t
  | None => Raise IndexError
  end.
Proof.
  unfold split, split_n, bind, text_after. rewrite split_unfold.
  destruct (partition (c :: sep) s) as [[a b]|]; [|reflexivity].
  rewrite split_unfold. unfold before.
  destruct (partition (c :: sep) b) as [[a' b']|]; reflexivity.
Qed.

Lemma between_run (c d : char) (a b s : str) :
  between (c :: a) (d :: b) s =
  match text_between (c :: a) (d :: b) s with
  | Some t => Ok t
  | None => Raise IndexError
  end.
Proof.
  unfold between, text_between.
  pose proof (split_item1 c a s) as H1.
  unfold split, split_n in H1 |- *. cbn [bind] in H1 |- *.
  destruct (getitem _ 1) as [t|e]; destruct (text_after (c :: a) s) as [t'|];
    try discriminate H1; cbn [bind].
  - injection H1 as ->. apply (split_item0 d b t').
  - exact H1.
Qed.

Lemma text_after_contains (a s : str) :
  contains a s = true -> exists t, text_after a s = Some t.
Proof.
  intros H. apply partition_Some in H as (x & y & H).
  unfold text_after. rewrite H. eauto.
Qed.

Lemma text_after_absent (a s : str) :
  contains a s = false -> text_after a s = None.
Proof.
  intros H. apply partition_None in H. unfold text_after. now rewrite H.
Qed.

Lemma markers_eq :
  MATCHED = [0x2705] /\ MISSING = [0x274C] /\ EXTRA = [0x1F4A1] /\
  SCORE = [0x1F4CA].
Proof. repeat split; vm_compute; reflexivity. Qed.

Lemma HEADING_cons : exists c h, HEADING = c :: h.
Proof. vm_compute. eauto. Qed.

Lemma world_eta (w : world) : World (files w) (screen w ++ []) = w.
Proof. destruct w; simpl. now rewrite app_nil_r. Qed.

(** A subsection never raises: its marker is tested first. *)
Lemma show_section_run (marker : str) (section : str -> result str)
    (text : str -> option str) (heading : str) (panel : str -> widget)
    (comparison : str) (w : world) :
  (contains marker comparison = false -> text comparison = None) ->
  (contains marker comparison = true ->
   exists t, text comparison = Some t /\ section comparison = Ok t) ->
  show_section marker section heading panel comparison w =
  (World (files w)
     (screen w ++ rendered_section heading panel (text comparison)), Ok tt).
Proof.
  intros Hno Hyes. unfold show_section.
  destruct (contains marker comparison).
  - destruct (Hyes eq_refl) as (t & -> & Ht).
    rewrite bind_run. unfold lift. rewrite Ht.
    rewrite bind_run, st_run, st_run. simpl. now rewrite <- app_assoc.
  - rewrite Hno by reflexivity. simpl. now rewrite world_eta.
Qed.

Lemma show_between_run (c d : char) (a b heading : str)
    (panel : str -> widget) (comparison : str) (w : world) :
  show_section (c :: a) (between (c :: a) (d :: b)) heading panel comparison w =
  (World (files w)
     (screen w ++ rendered_section heading panel
        (text_between (c :: a) (d :: b) comparison)), Ok tt).
Proof.
  apply show_section_run; intros H.
  - unfold text_between. now rewrite text_after_absent.
  - rewrite between_run. unfold text_between.
    destruct (text_after_contains _ _ H) as (t & ->). eauto.
Qed.

Lemma show_score_run (c : char) (a heading : str) (panel : str -> widget)
    (comparison : str) (w : world) :
  show_section (c :: a)
    (fun s => bind (split (c :: a) s) (fun l => getitem l 1))
    heading panel comparison w =
  (World (files w)
     (screen w ++ rendered_section heading panel
        (text_after (c :: a) comparison)), Ok tt).
Proof.
  apply show_section_run; intros H.
  - now apply text_after_absent.
  - rewrite split_item1.
    destruct (text_after_contains _ _ H) as (t & ->). eauto.
Qed.

(** Lines 146-172 never raise and leave the files alone; what they put on
    the screen is [rendered_comparison]. *)
Lemma show_comparison_run (comparison : str) (w : world) :
  show_comparison (Some comparison) w =
  (World (files w)
     (screen w ++
      if truthy comparison then rendered_comparison comparison else []),
   Ok tt).
Proof.
  unfold show_comparison. destruct (truthy comparison).
  - unfold rendered_comparison, matched_section, missing_section,
      extra_section, score_section.
    destruct markers_eq as (-> & -> & -> & ->).
    rewrite bind_run, st_run.
    rewrite bind_run, show_between_run.
    rewrite bind_run, show_between_run.
    rewrite bind_run, show_between_run.
    rewrite show_score_run. cbn [files screen].
    now rewrite <- !app_assoc.
  - simpl. now rewrite world_eta.
Qed.

(** Cutting the response at the heading never raises. *)
Lemma split_response_run (content : str) :
  split_response content =
  Ok (match partition HEADING content with
      | Some (resume_info, comparison) => (resume_info, Some comparison)
      | None => (content, None)
      end).
Proof.
  unfold split_response.
  destruct (contains HEADING content) eqn:E.
  - apply partition_Some in E as (a & b & E). rewrite E.
    destruct HEADING_cons as (c & h & Hh). rewrite Hh in E |- *.
    unfold split_n. cbn [bind split_max]. now rewrite E.
  - apply partition_None in E. now rewrite E.
Qed.

Lemma show_response_run (content : str) (w : world) :
  show_response content w =
  (World (files w) (screen w ++ rendered_response content), Ok tt).
Proof.
  unfold show_response, rendered_response. rewrite bind_run. unfold lift.
  rewrite split_response_run.
  destruct (partition HEADING content) as [[resume_info comparison]|].
  - rewrite bind_run, st_run, bind_run, st_run, show_comparison_run.
    cbn [files screen]. unfold rendered_resume_info.
    now rewrite <- !app_assoc.
  - rewrite bind_run, st_run, bind_run, st_run. cbn [files screen].
    unfold show_comparison, rendered_resume_info. simpl.
    now rewrite <- !app_assoc.
Qed.

(** [load_resume_docs] opens and writes the temporary file, then
    dispatches; when [open] raises it stops there. *)
Lemma load_resume_docs_run (f : UploadedFile) (w : world) :
  load_resume_docs realpath open_error PyPDFLoader_load Docx2txtLoader_load
    TextLoader_load f w =
  match open_error (files w) (temp_path f) with
  | Some e => (w, Raise e)
  | None =>
    (World (<[realpath (temp_path f) := getbuffer f]> (files w)) (screen w),
     load_outcome PyPDFLoader_load Docx2txtLoader_load TextLoader_load f
       (<[realpath (temp_path f) := getbuffer f]> (files w)))
  end.
Proof.
  unfold load_resume_docs, load_outcome. rewrite bind_run.
  unfold write_file, load. fold (temp_path f).
  destruct (open_error (files w) (temp_path f)); [reflexivity|].
  destruct (endswith (u ".pdf") (name f)); [reflexivity|].
  destruct (endswith (u ".docx") (name f)); [reflexivity|].
  destruct (endswith (u ".txt") (name f)); reflexivity.
Qed.

(** A call that returned had its file opened. *)
Lemma load_resume_docs_ok (f : UploadedFile) (w : world)
    (r : option (list Document)) :
  snd (load_resume_docs realpath open_error PyPDFLoader_load
         Docx2txtLoader_load TextLoader_load f w) = Ok r ->
  open_error (files w) (temp_path f) = None /\
  load_outcome PyPDFLoader_load Docx2txtLoader_load TextLoader_load f
    (<[realpath (temp_path f) := getbuffer f]> (files w)) = Ok r.
Proof.
  rewrite load_resume_docs_run.
  destruct (open_error (files w) (temp_path f)); [discriminate|].
  cbn [snd]. auto.
Qed.

(** A run of [main], branch by branch. *)
Lemma main_run (user : session) (w : world) :
  main realpath open_error PyPDFLoader_load Docx2txtLoader_load
    TextLoader_load llm_invoke user w =
  match upload user with
  | None => (World (files w) (screen w ++ page_top), Ok tt)
  | Some f =>
    let fs := <[realpath (temp_path f) := getbuffer f]> (files w) in
    let top := screen w ++ page_top ++ [spinner (u "Loading resume...")] in
    match open_error (files w) (temp_path f) with
    | Some e => (World (files w) top, Raise e)
    | None =>
      match load_outcome PyPDFLoader_load Docx2txtLoader_load TextLoader_load
              f fs with
      | Raise e => (World fs top, Raise e)
      | Ok docs =>
        if not_docs docs then
          (World fs (top ++ [error (u "Unsupported file type.")]), Ok tt)
        else if analyze user then
          (World fs
             (top ++ input_widgets (default [] docs) ++
              fst (analysis_outcome llm_invoke (default [] docs)
                     (job_description user))),
           snd (analysis_outcome llm_invoke (default [] docs)
                  (job_description user)))
        else (World fs (top ++ input_widgets (default [] docs)), Ok tt)
      end
    end
  end.
Proof.
  unfold main, page_top.
  rewrite bind_run, st_run, bind_run, st_run, bind_run, st_run.
  cbn [files screen]. rewrite <- !app_assoc. cbn [app].
  destruct (upload user) as [f|]; [|reflexivity].
  cbv zeta. rewrite bind_run, st_run, bind_run, load_resume_docs_run.
  cbn [files screen]. rewrite <- !app_assoc. cbn [app].
  destruct (open_error (files w) (temp_path f)) as [e|]; [reflexivity|].
  destruct (load_outcome _ _ _ f _) as [docs|e]; [|reflexivity].
  destruct (not_docs docs).
  { rewrite st_run. cbn [files screen]. now rewrite <- !app_assoc. }
  rewrite bind_run, st_run, bind_run, st_run, bind_run, st_run, bind_run,
    st_run, bind_run, st_run.
  cbn [files screen]. rewrite <- !app_assoc. cbn [app].
  destruct (analyze user); [|reflexivity].
  rewrite bind_run, st_run, bind_run. unfold lift, analysis_outcome.
  cbn [files screen]. rewrite <- !app_assoc. cbn [app].
  destruct (formatted_prompt _ _) as [p|e]; [|reflexivity].
  rewrite bind_run. destruct (llm_invoke p) as [content|e]; [|reflexivity].
  rewrite show_response_run. cbn [files screen fst snd].
  rewrite <- !app_assoc. reflexivity.
Qed.

End Runs.

(** ** The claims *)

Section Claims.

Import PyFacts.

Variable realpath : str -> str.
Variable open_error : gmap str (list N) -> str -> option exn.
Variable PyPDFLoader_load : gmap str (list N) -> str -> result (list Document).
Variable Docx2txtLoader_load : gmap str (list N) -> str -> result (list Document).
Variable TextLoader_load : gmap str (list N) -> str -> result (list Document).
Variable llm_invoke : str -> result str.

Lemma HEADING_unbordered : unbordered HEADING = true.
Proof. vm_compute. reflexivity. Qed.

Lemma markers_distinct : List.NoDup [0x2705; 0x274C; 0x1F4A1; 0x1F4CA].
Proof.
  repeat constructor; cbn [In]; intros H;
    repeat (destruct H as [H|H]; [discriminate H|]); exact H.
Qed.

Lemma marker_free_inv (x : str) (m : char) :
  marker_free x = true -> In m [0x2705; 0x274C; 0x1F4A1; 0x1F4CA] ->
  contains [m] x = false.
Proof.
  unfold marker_free. destruct markers_eq as (-> & -> & -> & ->).
  cbn [forallb]. rewrite !andb_true_iff, !negb_true_iff.
  intros (H1 & H2 & H3 & H4 & _) [<-|[<-|[<-|[<-|[]]]]]; assumption.
Qed.

Lemma matched_section_run (comparison : str) :
  matched_section comparison =
  match text_between MATCHED MISSING comparison with
  | Some t => Ok t
  | None => Raise IndexError
  end.
Proof.
  unfold matched_section. destruct markers_eq as (E1 & E2 & E3 & E4).
  rewrite ?E1, ?E2, ?E3, ?E4.
  apply between_run.
Qed.

Lemma missing_section_run (comparison : str) :
  missing_section comparison =
  match text_between MISSING EXTRA comparison with
  | Some t => Ok t
  | None => Raise IndexError
  end.
Proof.
  unfold missing_section. destruct markers_eq as (E1 & E2 & E3 & E4).
  rewrite ?E1, ?E2, ?E3, ?E4.
  apply between_run.
Qed.

Lemma extra_section_run (comparison : str) :
  extra_section comparison =
  match text_between EXTRA SCORE comparison with
  | Some t => Ok t
  | None => Raise IndexError
  end.
Proof.
  unfold extra_section. destruct markers_eq as (E1 & E2 & E3 & E4).
  rewrite ?E1, ?E2, ?E3, ?E4.
  apply between_run.
Qed.

Lemma score_section_run (comparison : str) :
  score_section comparison =
  match text_after SCORE comparison with
  | Some t => Ok t
  | None => Raise IndexError
  end.
Proof.
  unfold score_section. destruct markers_eq as (E1 & E2 & E3 & E4).
  rewrite ?E1, ?E2, ?E3, ?E4.
  apply split_item1.
Qed.

(** C1.  A response with the heading (first at the end of [pre]) and, after
    it, the four markers each once and in order: the resume section is
    [pre], the four sections before cleaning are the texts [b], [c], [d],
    [e] between a marker and the next, and these are what is shown. *)
Theorem partitioner_round_trip (pre a b c d e comparison content : str)
    (w : world) :
  contains HEADING pre = false ->
  marker_free a = true -> marker_free b = true -> marker_free c = true ->
  marker_free d = true -> marker_free e = true ->
  comparison = a ++ MATCHED ++ b ++ MISSING ++ c ++ EXTRA ++ d ++ SCORE ++ e ->
  content = pre ++ HEADING ++ comparison ->
  split_response content = Ok (pre, Some comparison) /\
  matched_section comparison = Ok b /\
  missing_section comparison = Ok c /\
  extra_section comparison = Ok d /\
  score_section comparison = Ok e /\
  show_response content w =
    (World (files w)
       (screen w ++
        [ markdown (u "## 📌 Extracted Resume Information") false;
          markdown pre true;
          markdown (u "## 🔍 Resume vs Job Description Skills") false;
          subheader (u "✅ Matching Skills"); success (clean_text_block b);
          subheader (u "❌ Missing Skills"); error (clean_text_block c);
          subheader (u "💡 Extra Skills"); warning (clean_text_block d);
          subheader (u "📊 Match Score"); info (clean_text_block e) ]),
     Ok tt).
Proof.
  intros Hpre Ha Hb Hc Hd He -> ->.
  set (comparison :=
         a ++ MATCHED ++ b ++ MISSING ++ c ++ EXTRA ++ d ++ SCORE ++ e).
  pose proof (partition_first HEADING pre comparison
                HEADING_unbordered Hpre) as Hcut.
  assert (text_between MATCHED MISSING comparison = Some b /\
          text_between MISSING EXTRA comparison = Some c /\
          text_between EXTRA SCORE comparison = Some d /\
          text_after SCORE comparison = Some e) as (F1 & F2 & F3 & F4).
  { subst comparison. destruct markers_eq as (-> & -> & -> & ->).
    apply (four_markers 0x2705 0x274C 0x1F4A1 0x1F4CA a b c d e
             markers_distinct).
    intros m x Hm [<-|[<-|[<-|[<-|[<-|[]]]]]]; now apply marker_free_inv. }
  assert (Htruthy : truthy comparison = true).
  { subst comparison. destruct markers_eq as (-> & _). now destruct a. }
  rewrite show_response_run, split_response_run.
  unfold rendered_response, rendered_comparison, rendered_resume_info.
  rewrite Hcut, matched_section_run, missing_section_run, extra_section_run,
    score_section_run.
  rewrite Htruthy, F1, F2, F3, F4. cbn [rendered_section app].
  repeat split.
Qed.

Lemma rendered_section_In (heading : str) (panel : str -> widget)
    (text : option str) (x : widget) :
  In x (rendered_section heading panel text) ->
  x = subheader heading \/ exists body, x = panel body.
Proof.
  destruct text as [t|]; cbn [rendered_section In]; [|intros []].
  intros [<-|[<-|[]]]; [left; reflexivity|right; eexists; reflexivity].
Qed.

Lemma formatted_prompt_shape (text jd_text : str) :
  formatted_prompt text jd_text =
  Ok (PROMPT_HEAD ++ text ++ PROMPT_MID ++
      (if truthy jd_text then jd_text else u "No JD provided") ++
      PROMPT_TAIL).
Proof. destruct jd_text as [|c jd]; vm_compute; reflexivity. Qed.

(** C6.  A response without the heading is the resume information as a
    whole: [main] shows it under the resume heading and shows nothing of the
    comparison, whatever the job description was. *)
Theorem response_without_heading (user : session) (f : UploadedFile)
    (docs : list Document) (prompt content : str) (w : world) :
  upload user = Some f ->
  snd (load_resume_docs realpath open_error PyPDFLoader_load
         Docx2txtLoader_load TextLoader_load f w) = Ok (Some docs) ->
  not_docs (Some docs) = false ->
  analyze user = true ->
  formatted_prompt (full_text_of docs) (job_description user) = Ok prompt ->
  llm_invoke prompt = Ok content ->
  contains HEADING content = false ->
  split_response content = Ok (content, None) /\
  main realpath open_error PyPDFLoader_load Docx2txtLoader_load
    TextLoader_load llm_invoke user w =
    (World (<[realpath (temp_path f) := getbuffer f]> (files w))
       (screen w ++ page_top ++ [spinner (u "Loading resume...")] ++
        input_widgets docs ++
        [ spinner (u "Sending to LLM...");
          markdown (u "## 📌 Extracted Resume Information") false;
          markdown content true ]),
     Ok tt).
Proof.
  intros Hf Hload Hdocs Hclick Hprompt Hllm Hno.
  apply partition_None in Hno. split.
  - rewrite split_response_run. now rewrite Hno.
  - rewrite main_run, Hf. cbv zeta.
    apply load_resume_docs_ok in Hload as [Hopen Hload].
    rewrite Hopen, Hload, Hdocs, Hclick. unfold analysis_outcome.
    cbn [from_option id]. rewrite Hprompt, Hllm. unfold rendered_response.
    rewrite Hno. cbn [fst snd]. unfold rendered_resume_info.
    now rewrite <- !app_assoc.
Qed.

(** C9, as amended.  When the first occurrence of the heading ends the
    response ([pre] holds no heading), the heading is found, the
    comparison is the empty string, and nothing of the comparison is
    shown. *)
Theorem heading_at_end_skips_comparison (pre : str) (w : world) :
  contains HEADING pre = false ->
  contains HEADING (pre ++ HEADING) = true /\
  split_response (pre ++ HEADING) = Ok (pre, Some []) /\
  show_response (pre ++ HEADING) w =
    (World (files w)
       (screen w ++
        [ markdown (u "## 📌 Extracted Resume Information") false;
          markdown pre true ]),
     Ok tt).
Proof.
  intros Hpre.
  pose proof (partition_first HEADING pre [] HEADING_unbordered Hpre) as Hcut.
  rewrite app_nil_r in Hcut. repeat split.
  - destruct (contains HEADING (pre ++ HEADING)) eqn:E; [reflexivity|].
    apply partition_None in E. congruence.
  - rewrite split_response_run. now rewrite Hcut.
  - rewrite show_response_run. unfold rendered_response. now rewrite Hcut.
Qed.

(** C9, as stated, fails: a response that ends with the heading and also
    holds it earlier is cut at the earlier one, and the comparison is
    shown. *)
Lemma heading_suffix_still_shown :
  endswith HEADING (HEADING ++ u "✅ Python" ++ HEADING) = true /\
  In (markdown (u "## 🔍 Resume vs Job Description Skills") false)
     (screen (fst (show_response (HEADING ++ u "✅ Python" ++ HEADING)
                     (World ∅ [])))).
Proof.
  split; [vm_compute; reflexivity|].
  rewrite show_response_run. vm_compute. tauto.
Qed.


(** C10.  A supported extension whose loader returns the empty list:
    [main] shows the same error and returns. *)
Theorem empty_documents_reported_unsupported (user : session)
    (f : UploadedFile) (w : world) :
  upload user = Some f ->
  endswith (u ".pdf") (name f) || endswith (u ".docx") (name f) ||
    endswith (u ".txt") (name f) = true ->
  snd (load_resume_docs realpath open_error PyPDFLoader_load
         Docx2txtLoader_load TextLoader_load f w) = Ok (Some []) ->
  main realpath open_error PyPDFLoader_load Docx2txtLoader_load
    TextLoader_load llm_invoke user w =
    (World (<[realpath (temp_path f) := getbuffer f]> (files w))
       (screen w ++ page_top ++
        [ spinner (u "Loading resume...");
          error (u "Unsupported file type.") ]),
     Ok tt).
Proof.
  intros Hf _ Hload. apply load_resume_docs_ok in Hload as [Hopen Hload].
  rewrite main_run, Hf. cbv zeta. rewrite Hopen, Hload.
  cbn [not_docs]. now rewrite <- !app_assoc.
Qed.

Lemma join_flat_map (sep x : str) (l : list str) :
  join sep (x :: l) = x ++ flat_map (fun y => sep ++ y) l.
Proof.
  revert x; induction l as [|y l IH]; intros x.
  - simpl. now rewrite app_nil_r.
  - change (join sep (x :: y :: l)) with (x ++ sep ++ join sep (y :: l)).
    rewrite IH. cbn [flat_map]. now rewrite <- app_assoc.
Qed.

Lemma full_text_of_cons (d : Document) (ds : list Document) :
  full_text_of (d :: ds) =
  page_content d ++ flat_map (fun d' => [LF; LF] ++ page_content d') ds.
Proof.
  unfold full_text_of. cbn [List.map]. rewrite join_flat_map. f_equal.
  induction ds as [|d' ds IH]; [reflexivity|].
  cbn [List.map flat_map]. now rewrite IH.
Qed.

(** C8.  Once the documents [d], [ds...] are loaded, the preview text area
    shows the first 4000 characters of the text that is the first page
    content followed, for every further document, by two newlines and its
    page content: the preview is a beginning of that text, as long as the
    text or 4000 characters long, whichever is less. *)
Theorem preview_first_4000 (user : session) (f : UploadedFile)
    (d : Document) (ds : list Document) (w : world) :
  upload user = Some f ->
  snd (load_resume_docs realpath open_error PyPDFLoader_load
         Docx2txtLoader_load TextLoader_load f w) = Ok (Some (d :: ds)) ->
  exists preview_text cut rest r,
    main realpath open_error PyPDFLoader_load Docx2txtLoader_load
      TextLoader_load llm_invoke user w =
    (World (<[realpath (temp_path f) := getbuffer f]> (files w))
       (screen w ++ page_top ++
        [ spinner (u "Loading resume...");
          expander (u "📖 Resume Extracted Text Preview");
          text_area (u "Preview (first 4000 chars)") (Some preview_text)
            None (Some 200) ] ++ rest),
     r) /\
    page_content d ++ flat_map (fun d' => [LF; LF] ++ page_content d') ds =
      preview_text ++ cut /\
    length preview_text =
      Nat.min 4000
        (length (page_content d ++
                 flat_map (fun d' => [LF; LF] ++ page_content d') ds)) /\
    (length preview_text <= 4000)%nat.
Proof.
  intros Hf Hload. apply load_resume_docs_ok in Hload as [Hopen Hload].
  rewrite main_run, Hf. cbv zeta. rewrite Hopen, Hload. cbn [not_docs].
  cbn [from_option id]. unfold input_widgets. rewrite full_text_of_cons.
  set (text := page_content d ++ _).
  exists (take 4000 text), (drop 4000 text).
  assert (Hrest : forall l1 (l2 : list widget) a b,
            l1 ++ [a] ++ (b :: l2) = l1 ++ [a; b] ++ l2) by reflexivity.
  destruct (analyze user); eexists _, _;
    (split; [rewrite <- !app_assoc; cbn [app]; reflexivity|]);
    (split; [now rewrite take_drop|]);
    (split; [apply length_take|rewrite length_take; lia]).
Qed.


Lemma cleaned_lines_ok (text : str) :
  exists lines,
    clean_text_block text = join [LF] lines /\
    Forall no_linebreak lines /\ Forall no_leading_bullet lines.
Proof.
  unfold clean_text_block. eexists. split; [reflexivity|].
  set (t := strip _). clearbody t.
  pose proof (splitlines_no_linebreak t) as H.
  induction H as [|l ls Hl Hls IH]; [split; constructor|].
  cbn [List.filter]. destruct (truthy (strip l)); [|exact IH].
  cbn [List.map]. destruct IH as [IH1 IH2].
  split; constructor; try assumption.
  - now apply strip_by_Forall.
  - repeat split; apply strip_chars_begins; vm_compute; reflexivity.
Qed.

(** C3, as amended.  For every input string, no line of the output of
    [clean_text_block] begins with a space, ['-'] or ['•'], whether the
    lines of the output are taken with [splitlines()] or with
    [split("\n")]. *)
Theorem clean_text_block_no_leading_bullet (text : str) :
  Forall no_leading_bullet (splitlines (clean_text_block text)) /\
  exists ls, split [LF] (clean_text_block text) = Ok ls /\
             Forall no_leading_bullet ls.
Proof.
  destruct (cleaned_lines_ok text) as (lines & -> & Hnl & Hok). split.
  - apply List.Forall_forall. intros l Hl.
    apply splitlines_join in Hl; [|exact Hnl].
    rewrite List.Forall_forall in Hok. now apply Hok.
  - unfold split, split_n. rewrite split_join by exact Hnl.
    eexists; split; [reflexivity|].
    destruct lines; [|exact Hok].
    constructor; [|constructor]. now repeat split.
Qed.

(** C3, as stated, fails: a line of the output begins with ['#'] when the
    input has a single ['#'], and with a tab when an inner line of the input
    does. *)
Lemma clean_text_block_leading_hash_and_tab :
  (exists l, In l (splitlines (clean_text_block (u "# Summary"))) /\
             begins_with 0x23 l = true) /\
  (exists l, In l (splitlines
                     (clean_text_block (u "Skills:" ++ [LF; 0x09] ++ u "Python"))) /\
             begins_with 0x09 l = true /\ isspace 0x09 = true).
Proof.
  split.
  - exists (u "# Summary"). vm_compute. split; [now left|reflexivity].
  - exists (0x09 :: u "Python"). vm_compute. split; [now right; left|easy].
Qed.

Lemma PROMPT_TEMPLATE_parts :
  PROMPT_TEMPLATE =
    PROMPT_HEAD ++ u "{text}" ++ PROMPT_MID ++ u "{jd_text}" ++ PROMPT_TAIL /\
  length PROMPT_TEMPLATE = 1238%nat /\
  endswith (u "Resume text:" ++ [LF]) PROMPT_HEAD = true.
Proof. repeat split; vm_compute; reflexivity. Qed.

(** C5.  The prompt is the template with the resume text in place of
    [{text}] and, in place of [{jd_text}], the JD text or, when that is
    empty, ["No JD provided"]; it never raises, and equal pairs give equal
    prompts. *)
Theorem formatted_prompt_pure (text jd_text : str) :
  formatted_prompt text jd_text =
    Ok (PROMPT_HEAD ++ text ++ PROMPT_MID ++
        (if truthy jd_text then jd_text else u "No JD provided") ++
        PROMPT_TAIL) /\
  formatted_prompt text [] =
    Ok (PROMPT_HEAD ++ text ++ PROMPT_MID ++ u "No JD provided" ++
        PROMPT_TAIL) /\
  forall text' jd_text',
    (text, jd_text) = (text', jd_text') ->
    formatted_prompt text jd_text = formatted_prompt text' jd_text'.
Proof.
  split; [|split].
  - apply formatted_prompt_shape.
  - apply (formatted_prompt_shape text []).
  - intros text' jd_text' [= <- <-]. reflexivity.
Qed.

End Claims.

(** ** The claims on sample runs *)

Lemma partitioner_round_trip_sample :
  matched_section
    (u " " ++ MATCHED ++ u " Python" ++ MISSING ++ u " AWS" ++ EXTRA ++
     u " SQL" ++ SCORE ++ u " 50%") = Ok (u " Python").
Proof.
  refine (proj1 (proj2
    (partitioner_round_trip (u "### 🛠 Skills") (u " ") (u " Python")
       (u " AWS") (u " SQL") (u " 50%") _ _ blank _ _ _ _ _ _
       eq_refl eq_refl)));
    vm_compute; reflexivity.
Defined.

Lemma response_without_heading_sample :
  snd (main same_path flat_open_error failing_loader failing_loader plain_loader
         (fixed_llm (u "### 👤 Personal Details"))
         (visit txt_upload (u "Python, AWS") true) blank) = Ok tt.
Proof.
  rewrite (proj2
    (response_without_heading same_path flat_open_error failing_loader failing_loader plain_loader
       (fixed_llm (u "### 👤 Personal Details"))
       (visit txt_upload (u "Python, AWS") true) txt_upload
       [ {| page_content := u "John Doe, Python, SQL" |} ]
       _ (u "### 👤 Personal Details") blank
       eq_refl ltac:(vm_compute; reflexivity) eq_refl eq_refl
       (formatted_prompt_shape _ _) eq_refl ltac:(vm_compute; reflexivity))).
  reflexivity.
Defined.

Lemma heading_at_end_skips_comparison_sample :
  split_response (u "### 🛠 Skills" ++ HEADING) =
  Ok (u "### 🛠 Skills", Some []).
Proof.
  refine (proj1 (proj2
    (heading_at_end_skips_comparison (u "### 🛠 Skills") blank _)));
    vm_compute; reflexivity.
Defined.




Lemma preview_first_4000_sample :
  exists preview_text cut rest r,
    main same_path flat_open_error failing_loader failing_loader
      paged_loader (fixed_llm []) (visit txt_upload [] false) blank =
    (World (<[same_path (temp_path txt_upload) := getbuffer txt_upload]>
              (files blank))
       (screen blank ++ page_top ++
        [ spinner (u "Loading resume...");
          expander (u "📖 Resume Extracted Text Preview");
          text_area (u "Preview (first 4000 chars)") (Some preview_text)
            None (Some 200) ] ++ rest),
     r) /\
    page_content {| page_content := u "John Doe" |} ++
    flat_map (fun d' => [LF; LF] ++ page_content d')
      [ {| page_content := u "Python, SQL" |} ] =
      preview_text ++ cut /\
    length preview_text =
      Nat.min 4000
        (length (page_content {| page_content := u "John Doe" |} ++
                 flat_map (fun d' => [LF; LF] ++ page_content d')
                   [ {| page_content := u "Python, SQL" |} ])) /\
    (length preview_text <= 4000)%nat.
Proof.
  apply (preview_first_4000 same_path flat_open_error failing_loader
           failing_loader paged_loader (fixed_llm [])
           (visit txt_upload [] false) txt_upload);
    [reflexivity | vm_compute; reflexivity].
Defined.

Lemma empty_documents_reported_unsupported_sample :
  screen (fst (main same_path flat_open_error failing_loader failing_loader empty_loader (fixed_llm [])
                 (visit txt_upload [] false) blank)) =
  page_top ++
  [ spinner (u "Loading resume..."); error (u "Unsupported file type.") ].
Proof.
  rewrite (empty_documents_reported_unsupported same_path flat_open_error failing_loader failing_loader
             empty_loader (fixed_llm []) (visit txt_upload [] false)
             txt_upload blank eq_refl);
    [reflexivity | vm_compute; reflexivity | vm_compute; reflexivity].
Defined.

(** ** Further facts about the string operations *)

Module MoreFacts.

Import PyFacts.

Lemma startswith_mono (p a b : str) :
  startswith p a = true -> startswith p (a ++ b) = true.
Proof.
  revert a; induction p as [|c p IH]; intros [|d a]; simpl; try easy.
  rewrite !andb_true_iff. intros [-> H]. auto.
Qed.

(** [partition] cuts at the leftmost occurrence: none lies in the text
    before the cut. *)
Lemma partition_leftmost (c : char) (sep s a b : str) :
  partition (c :: sep) s = Some (a, b) -> contains (c :: sep) a = false.
Proof.
  revert a; induction s as [|d s IH]; intros a.
  - cbn. discriminate.
  - cbn [partition].
    destruct (startswith (c :: sep) (d :: s)) eqn:E.
    + intros [= <- <-]. reflexivity.
    + destruct (partition (c :: sep) s) as [[a' b']|] eqn:Ep; [|discriminate].
      intros [= <- <-]. cbn [contains]. rewrite (IH a' eq_refl), orb_false_r.
      destruct (startswith (c :: sep) (d :: a')) eqn:E'; [|reflexivity].
      apply partition_inv in Ep. subst s.
      apply (startswith_mono _ _ ((c :: sep) ++ b')) in E'.
      simpl app in E, E'. congruence.
Qed.

Lemma partition_nil_startswith (sep s b : str) :
  partition sep s = Some ([], b) -> startswith sep s = true.
Proof.
  destruct s as [|d s]; cbn [partition].
  - destruct (startswith sep []); [reflexivity|discriminate].
  - destruct (startswith sep (d :: s)); [reflexivity|].
    destruct (partition sep s) as [[a' b']|]; discriminate.
Qed.

(** *** Two equal characters in a row *)

Lemma contains_pair_cons (h c : char) (t : str) :
  contains [h; h] (c :: t) =
  ((c =? h) && begins_with h t) || contains [h; h] t.
Proof.
  cbn [contains startswith]. f_equal. rewrite (N.eqb_sym h c). f_equal.
  destruct t as [|d t]; [reflexivity|]. cbn.
  now rewrite andb_true_r, N.eqb_sym.
Qed.

Lemma ends_with_cons (h c : char) (t : str) :
  ends_with h (c :: t) =
  match t with [] => c =? h | _ :: _ => ends_with h t end.
Proof. destruct t; reflexivity. Qed.

Lemma begins_with_app (h : char) (x y : str) :
  begins_with h (x ++ y) =
  match x with [] => begins_with h y | _ :: _ => begins_with h x end.
Proof. destruct x; reflexivity. Qed.

Lemma contains_pair_app (h : char) (x y : str) :
  contains [h; h] (x ++ y) =
  contains [h; h] x || contains [h; h] y ||
  (ends_with h x && begins_with h y).
Proof.
  induction x as [|c x IH]; [cbn; now rewrite orb_false_r|].
  simpl app. rewrite !contains_pair_cons, IH, begins_with_app, ends_with_cons.
  destruct x as [|d x].
  - cbn [contains startswith begins_with]. cbn [orb andb].
    now destruct (c =? h), (begins_with h y), (contains [h; h] y).
  - destruct (c =? h), (begins_with h (d :: x)), (contains [h; h] (d :: x)),
      (contains [h; h] y), (ends_with h (d :: x)), (begins_with h y);
      reflexivity.
Qed.

Lemma partition_pair_end (h : char) (s a b : str) :
  partition [h; h] s = Some (a, b) -> ends_with h a = false.
Proof.
  revert a; induction s as [|d s IH]; intros a.
  - cbn. discriminate.
  - cbn [partition]. destruct (startswith [h; h] (d :: s)) eqn:E.
    + intros [= <- <-]. reflexivity.
    + destruct (partition [h; h] s) as [[a' b']|] eqn:Ep; [|discriminate].
      intros [= <- <-]. rewrite ends_with_cons.
      destruct a' as [|e a']; [|now apply IH].
      apply partition_nil_startswith in Ep.
      destruct (N.eqb_spec d h) as [->|]; [|reflexivity].
      destruct s as [|e s]; [discriminate Ep|].
      cbn [startswith] in E, Ep. rewrite N.eqb_refl in E.
      apply andb_true_iff in Ep as [Ep _]. now rewrite Ep in E.
Qed.

(** After [replace(hh, "")] no [hh] is left. *)
Lemma replace_count_no_pair (h : char) (n : nat) (s : str) :
  (length s <= n)%nat ->
  contains [h; h] (replace_count [h; h] [] n s) = false.
Proof.
  revert s; induction n as [|n IH]; intros s Hn.
  - destruct s; [reflexivity|simpl in Hn; lia].
  - cbn [replace_count].
    destruct (partition [h; h] s) as [[a b]|] eqn:E.
    + pose proof (partition_length _ _ _ _ E) as Hl. simpl length in Hl.
      cbn [app]. rewrite contains_pair_app.
      rewrite (partition_leftmost _ _ _ _ _ E), (partition_pair_end _ _ _ _ E).
      rewrite IH by lia. reflexivity.
    + now apply partition_None.
Qed.

(** *** Contiguous parts *)

Lemma infix_refl (s : str) : infix s s.
Proof. exists [], []. now rewrite app_nil_r. Qed.

Lemma infix_trans (l m s : str) : infix l m -> infix m s -> infix l s.
Proof.
  intros (x & y & ->) (x' & y' & ->). exists (x' ++ x), (y ++ y').
  now rewrite <- !app_assoc.
Qed.

Lemma infix_Forall (Q : char -> Prop) (l s : str) :
  infix l s -> Forall Q s -> Forall Q l.
Proof.
  intros (x & y & ->) H. apply Forall_app in H as [_ H].
  now apply Forall_app in H as [H _].
Qed.

Lemma infix_no_pair (h : char) (l s : str) :
  infix l s -> contains [h; h] s = false -> contains [h; h] l = false.
Proof.
  intros (x & y & ->). rewrite !contains_pair_app, !orb_false_iff. tauto.
Qed.

Lemma lstrip_by_infix (p : char -> bool) (s : str) : infix (lstrip_by p s) s.
Proof.
  induction s as [|c s IH]; simpl; [apply infix_refl|].
  destruct (p c); [|apply infix_refl].
  destruct IH as (x & y & E). exists (c :: x), y. simpl. now f_equal.
Qed.

Lemma infix_rev (l s : str) : infix l s -> infix (rev l) (rev s).
Proof.
  intros (x & y & ->). exists (rev y), (rev x).
  now rewrite !rev_app_distr, <- app_assoc.
Qed.

Lemma strip_by_infix (p : char -> bool) (s : str) : infix (strip_by p s) s.
Proof.
  unfold strip_by, rstrip_by.
  apply (infix_trans _ (lstrip_by p s)); [|apply lstrip_by_infix].
  rewrite <- (rev_involutive (lstrip_by p s)) at 2.
  apply infix_rev, lstrip_by_infix.
Qed.

Lemma splitlines_from_infix (n : nat) (s cur l : str) :
  (length s <= n)%nat -> In l (splitlines_from cur s) -> infix l (cur ++ s).
Proof.
  revert s cur; induction n as [|n IH]; intros [|c s] cur Hn;
    simpl in Hn; try lia.
  - simpl. destruct cur; [easy|]. intros [<-|[]].
    rewrite app_nil_r. apply infix_refl.
  - simpl. destruct cur; [easy|]. intros [<-|[]].
    rewrite app_nil_r. apply infix_refl.
  - cbn [splitlines_from]. destruct (islinebreak c).
    + intros [<-|Hin]; [exists [], (c :: s); reflexivity|].
      destruct s as [|d s].
      * apply (IH [] []) in Hin; [|simpl; lia].
        destruct Hin as (x & y & E). destruct x, l, y; try discriminate E.
        exists (cur ++ [c]), []. now rewrite <- app_assoc.
      * destruct ((c =? 13) && (d =? 10)).
        -- apply IH in Hin; [|simpl in *; lia].
           destruct Hin as (x & y & E). simpl in E. subst s.
           exists (cur ++ c :: d :: x), y. now rewrite <- app_assoc.
        -- apply IH in Hin; [|simpl in *; lia].
           destruct Hin as (x & y & E). simpl in E. rewrite E.
           exists (cur ++ c :: x), y. now rewrite <- app_assoc.
    + intros Hin. apply IH in Hin; [|lia].
      now rewrite <- app_assoc in Hin.
Qed.

(** Every line of [s.splitlines()] is a contiguous part of [s]. *)
Lemma splitlines_infix (s l : str) : In l (splitlines s) -> infix l s.
Proof. apply (splitlines_from_infix (length s)). lia. Qed.

Lemma join_Forall (Q : char -> Prop) (sep : str) (ls : list str) :
  Forall Q sep -> Forall (Forall Q) ls -> Forall Q (join sep ls).
Proof.
  intros Hsep. induction 1 as [|x ls Hx Hls IH]; [constructor|].
  destruct ls as [|y ls]; [exact Hx|].
  change (join sep (x :: y :: ls)) with (x ++ sep ++ join sep (y :: ls)).
  apply Forall_app; split; [exact Hx|]. now apply Forall_app.
Qed.

Lemma join_no_pair (h : char) (ls : list str) :
  h <> LF -> Forall (fun l => contains [h; h] l = false) ls ->
  contains [h; h] (join [LF] ls) = false.
Proof.
  intros Hh. induction 1 as [|x ls Hx Hls IH]; [reflexivity|].
  destruct ls as [|y ls]; [exact Hx|].
  change (join [LF] (x :: y :: ls)) with (x ++ LF :: join [LF] (y :: ls)).
  rewrite contains_pair_app, contains_pair_cons, Hx, IH.
  cbn [begins_with]. apply N.eqb_neq in Hh. rewrite N.eqb_sym in Hh.
  rewrite Hh. cbn. apply andb_false_r.
Qed.

End MoreFacts.

(** ** Further properties of the cleaning function *)

Section CleaningExtras.

Import PyFacts MoreFacts.

Lemma hashes_eq : u "###" = [0x23; 0x23; 0x23] /\ u "##" = [0x23; 0x23].
Proof. split; vm_compute; reflexivity. Qed.

Lemma bullets_mem :
  mem 0x20 (u " -•") = true /\ mem 0x2D (u " -•") = true /\
  mem 0x2022 (u " -•") = true.
Proof. repeat split; vm_compute; reflexivity. Qed.

(** The lines [clean_text_block] joins: stripped lines of the text that is
    left after the two [replace] calls and the outer [strip]. *)
Lemma cleaned_lines (text : str) :
  exists lines,
    clean_text_block text = join [LF] lines /\
    Forall (fun l => exists l0,
              In l0 (splitlines
                       (strip (replace (u "##") (u "")
                                 (replace (u "###") (u "") text)))) /\
              l = strip_chars (u " -•") l0) lines.
Proof.
  unfold clean_text_block. eexists. split; [reflexivity|].
  apply List.Forall_forall. intros l Hl.
  apply in_map_iff in Hl as (l0 & <- & Hl0).
  apply filter_In in Hl0 as [Hl0 _]. eauto.
Qed.

Lemma cleaned_lines_no_linebreak (text : str) :
  exists lines,
    clean_text_block text = join [LF] lines /\
    Forall no_linebreak lines /\
    Forall (fun l => exists l0,
              infix l0 (replace (u "##") (u "")
                          (replace (u "###") (u "") text)) /\
              l = strip_chars (u " -•") l0) lines.
Proof.
  destruct (cleaned_lines text) as (lines & E & H). exists lines.
  split; [exact E|]. rewrite List.Forall_forall in H.
  split; apply List.Forall_forall; intros l Hl;
    destruct (H l Hl) as (l0 & Hl0 & ->).
  - apply strip_by_Forall.
    pose proof (splitlines_no_linebreak
                  (strip (replace (u "##") (u "")
                            (replace (u "###") (u "") text)))) as Hn.
    rewrite List.Forall_forall in Hn. now apply Hn.
  - exists l0. split; [|reflexivity].
    apply splitlines_infix in Hl0.
    eapply infix_trans; [exact Hl0|apply strip_by_infix].
Qed.

Lemma replace_hashes_no_pair (s : str) :
  contains [0x23; 0x23] (replace (u "##") (u "") s) = false.
Proof.
  unfold replace. destruct hashes_eq as [_ ->].
  change (u "") with (@nil char). now apply replace_count_no_pair.
Qed.

(** X1.  Whatever the input, the output of [clean_text_block] holds no two
    ['#'] in a row.  (A single ['#'] can be left.) *)
Theorem clean_text_block_no_double_hash (text : str) :
  contains (u "##") (clean_text_block text) = false.
Proof.
  destruct (cleaned_lines_no_linebreak text) as (lines & -> & _ & H).
  destruct hashes_eq as [_ E]. rewrite E at 1.
  apply join_no_pair; [discriminate|].
  apply List.Forall_forall. intros l Hl. rewrite List.Forall_forall in H.
  destruct (H l Hl) as (l0 & Hl0 & ->).
  apply (infix_no_pair _ _ l0); [apply strip_by_infix|].
  apply (infix_no_pair _ _ _ Hl0), replace_hashes_no_pair.
Qed.

Lemma last_rev (x : str) : last (rev x) = head x.
Proof. destruct x as [|c x]; [reflexivity|]. simpl. apply last_snoc. Qed.

Lemma strip_by_last (p : char -> bool) (s : str) :
  match last (strip_by p s) with
  | Some c => p c = false
  | None => True
  end.
Proof.
  unfold strip_by, rstrip_by. rewrite last_rev.
  pose proof (lstrip_by_head p (rev (lstrip_by p s))) as H.
  now destruct (lstrip_by p (rev (lstrip_by p s))).
Qed.

Lemma strip_chars_ends (chars : str) (c : char) (s : str) :
  mem c chars = true -> ends_with c (strip_chars chars s) = false.
Proof.
  intros Hc. unfold strip_chars, ends_with.
  pose proof (strip_by_last (fun c => mem c chars) s) as H.
  destruct (last (strip_by _ s)) as [d|]; [|reflexivity].
  destruct (N.eqb_spec d c) as [->|]; [congruence|reflexivity].
Qed.

(** X2.  No line of the output of [clean_text_block] ends with a space,
    ['-'] or ['•']. *)
Theorem clean_text_block_no_trailing_bullet (text : str) :
  Forall no_trailing_bullet (splitlines (clean_text_block text)).
Proof.
  destruct (cleaned_lines_no_linebreak text) as (lines & -> & Hnl & H).
  apply List.Forall_forall. intros l Hl.
  apply splitlines_join in Hl; [|exact Hnl].
  rewrite List.Forall_forall in H. destruct (H l Hl) as (l0 & _ & ->).
  destruct bullets_mem as (B1 & B2 & B3).
  repeat split; now apply strip_chars_ends.
Qed.

(** X3.  The only line boundary in the output of [clean_text_block] is
    ["\n"]: carriage returns and the other boundaries [splitlines()] knows
    are gone. *)
Theorem clean_text_block_newlines_only (text : str) :
  Forall (fun c => islinebreak c = true -> c = LF) (clean_text_block text).
Proof.
  destruct (cleaned_lines_no_linebreak text) as (lines & -> & Hnl & _).
  apply join_Forall; [now repeat constructor|].
  apply List.Forall_forall. intros l Hl. rewrite List.Forall_forall in Hnl.
  apply List.Forall_forall. intros c Hc E.
  pose proof (Hnl l Hl) as Hno. unfold no_linebreak in Hno.
  rewrite List.Forall_forall in Hno. rewrite (Hno c Hc) in E. discriminate.
Qed.

Lemma replace_count_Forall (Q : char -> Prop) (old : str) (n : nat) (s : str) :
  Forall Q s -> Forall Q (replace_count old [] n s).
Proof.
  revert s; induction n as [|n IH]; intros s Hs; [exact Hs|].
  cbn [replace_count]. destruct (partition old s) as [[a b]|] eqn:E;
    [|exact Hs].
  apply partition_inv in E. subst s.
  apply Forall_app in Hs as [Ha Hs]. apply Forall_app in Hs as [_ Hb].
  apply Forall_app; split; [exact Ha|]. now apply IH.
Qed.

Lemma replace_hashes_Forall (Q : char -> Prop) (s : str) :
  Forall Q s ->
  Forall Q (replace (u "##") (u "") (replace (u "###") (u "") s)).
Proof.
  intros H. unfold replace. destruct hashes_eq as [-> ->].
  change (u "") with (@nil char).
  now apply replace_count_Forall, replace_count_Forall.
Qed.

(** X4.  [clean_text_block] invents nothing: every character of the output
    is ["\n"] or a character of the input. *)
Theorem clean_text_block_from_input (text : str) :
  Forall (fun c => c = LF \/ In c text) (clean_text_block text).
Proof.
  destruct (cleaned_lines_no_linebreak text) as (lines & -> & _ & H).
  apply join_Forall; [repeat constructor; now left|].
  apply List.Forall_forall. intros l Hl. rewrite List.Forall_forall in H.
  destruct (H l Hl) as (l0 & Hl0 & ->).
  apply strip_by_Forall. apply (infix_Forall _ _ _ Hl0).
  apply replace_hashes_Forall. apply List.Forall_forall. now right.
Qed.

Lemma contains_absent_char (h : char) (rest s : str) :
  Forall (fun c => c <> h) s -> contains (h :: rest) s = false.
Proof.
  induction 1 as [|c s Hc Hs IH]; [reflexivity|].
  cbn [contains startswith]. rewrite IH.
  apply N.eqb_neq in Hc. rewrite N.eqb_sym in Hc. now rewrite Hc.
Qed.

Lemma replace_count_absent (old new : str) (n : nat) (s : str) :
  contains old s = false -> replace_count old new n s = s.
Proof.
  intros H. apply partition_None in H.
  destruct n; cbn [replace_count]; [reflexivity|now rewrite H].
Qed.

Lemma lstrip_by_all (p : char -> bool) (s : str) :
  Forall (fun c => p c = true) s -> lstrip_by p s = [].
Proof. induction 1 as [|c s Hc Hs IH]; simpl; [reflexivity|now rewrite Hc]. Qed.

(** X5.  An input of whitespace only, the empty string included, is
    cleaned to the empty string. *)
Theorem clean_text_block_blank (text : str) :
  Forall (fun c => isspace c = true) text -> clean_text_block text = [].
Proof.
  intros H.
  assert (Hh : Forall (fun c => c <> 0x23) text).
  { eapply Forall_impl; [exact H|]. intros c Hc ->. discriminate Hc. }
  unfold clean_text_block, replace. destruct hashes_eq as [-> ->].
  rewrite (replace_count_absent _ _ _ text)
    by now apply contains_absent_char.
  rewrite replace_count_absent by now apply contains_absent_char.
  unfold strip, strip_by. rewrite lstrip_by_all by exact H. reflexivity.
Qed.

Lemma contains_triple_pair (h : char) (s : str) :
  contains [h; h] s = false -> contains [h; h; h] s = false.
Proof.
  intros H. destruct (contains [h; h; h] s) eqn:E; [|reflexivity].
  apply contains_spec in E as (a & b & ->).
  assert (contains [h; h] (a ++ [h; h; h] ++ b) = true); [|congruence].
  apply contains_spec. exists a, (h :: b). reflexivity.
Qed.

(** X6.  Plain text is kept: a single non-empty line without ["##"] that
    [strip()] and [strip(" -•")] leave as it is comes back unchanged. *)
Theorem clean_text_block_plain (text : str) :
  text <> [] ->
  no_linebreak text ->
  contains (u "##") text = false ->
  strip text = text ->
  strip_chars (u " -•") text = text ->
  clean_text_block text = text.
Proof.
  intros Hne Hnl Hh Hs Hb.
  unfold clean_text_block, replace. destruct hashes_eq as [E3 E2].
  rewrite E2 in Hh. rewrite E3, E2.
  rewrite (replace_count_absent _ _ _ text) by now apply contains_triple_pair.
  rewrite replace_count_absent by exact Hh. rewrite Hs.
  unfold splitlines. rewrite <- (app_nil_r text) at 1.
  rewrite splitlines_from_app by exact Hnl. cbn [app splitlines_from].
  destruct text as [|c t] eqn:Et; [easy|]. rewrite <- Et in *.
  cbn [List.filter]. rewrite Hs. rewrite Et at 1. cbn [truthy List.map].
  rewrite Hb. reflexivity.
Qed.

End CleaningExtras.

Lemma clean_text_block_blank_sample :
  clean_text_block (u "  " ++ [0x09; LF; 0x0D; LF] ++ u " ") = [].
Proof.
  apply clean_text_block_blank. vm_compute. repeat constructor.
Defined.

Lemma clean_text_block_plain_sample :
  clean_text_block (u "Python, SQL (C# too) - 5 years") =
  u "Python, SQL (C# too) - 5 years".
Proof.
  apply clean_text_block_plain.
  - discriminate.
  - vm_compute. repeat constructor.
  - vm_compute. reflexivity.
  - vm_compute. reflexivity.
  - vm_compute. reflexivity.
Defined.

(** ** Further properties of the response partitioner *)

Section PartitionerExtras.

Import PyFacts MoreFacts.

Lemma before_shape (m : char) (s : str) :
  exists rest,
    s = before [m] s ++ rest /\ contains [m] (before [m] s) = false /\
    (rest = [] \/ startswith [m] rest = true).
Proof.
  unfold before. destruct (partition [m] s) as [[a b]|] eqn:E.
  - exists (m :: b). split; [now apply partition_inv in E|].
    split; [now apply partition_leftmost in E|].
    right. cbn. now rewrite N.eqb_refl.
  - exists []. rewrite app_nil_r. split; [reflexivity|].
    split; [now apply partition_None|now left].
Qed.

Lemma text_after_shape (m : char) (s t : str) :
  text_after [m] s = Some t -> section_cut [m] [m] s t.
Proof.
  unfold text_after. destruct (partition [m] s) as [[a r]|] eqn:E;
    [|discriminate].
  intros [= <-]. destruct (before_shape m r) as (rest & Hr & Hno & Hrest).
  exists a, rest. split; [|split; [|split; [|split]]].
  - apply partition_inv in E. rewrite E. rewrite Hr at 1. reflexivity.
  - now apply partition_leftmost in E.
  - exact Hno.
  - exact Hno.
  - tauto.
Qed.

Lemma text_between_shape (m n : char) (s t : str) :
  text_between [m] [n] s = Some t -> section_cut [m] [n] s t.
Proof.
  unfold text_between. destruct (text_after [m] s) as [t1|] eqn:E;
    [|discriminate].
  intros [= <-]. apply text_after_shape in E.
  destruct E as (a & rest1 & Hs & Ha & Ht1 & _ & Hrest1).
  destruct (before_shape n t1) as (rest2 & Ht & Hno & Hrest2).
  exists a, (rest2 ++ rest1). split; [|split; [|split; [|split]]].
  - rewrite Hs. rewrite Ht at 1. rewrite <- !app_assoc. reflexivity.
  - exact Ha.
  - rewrite Ht in Ht1. rewrite contains_char_app in Ht1.
    now apply orb_false_iff in Ht1.
  - exact Hno.
  - destruct Hrest2 as [->|H2].
    + destruct Hrest1 as [->|[H1|H1]];
        [left; reflexivity|right; left; exact H1|right; left; exact H1].
    + right; right. now apply startswith_mono.
Qed.

Lemma ok_of_some {A} (o : option A) (t : A) :
  o = Some t ->
  match o with Some x => Ok x | None => Raise IndexError end = Ok t.
Proof. now intros ->. Qed.

Lemma between_cut (m n : char) (s : str) :
  contains [m] s = true ->
  exists t, text_between [m] [n] s = Some t /\ section_cut [m] [n] s t.
Proof.
  intros H. apply text_after_contains in H as (t1 & H1).
  exists (before [n] t1).
  assert (text_between [m] [n] s = Some (before [n] t1)) as E
    by (unfold text_between; now rewrite H1).
  split; [exact E|now apply text_between_shape].
Qed.

Lemma after_cut (m : char) (s : str) :
  contains [m] s = true ->
  exists t, text_after [m] s = Some t /\ section_cut [m] [m] s t.
Proof.
  intros H. apply text_after_contains in H as (t & H).
  exists t. split; [exact H|now apply text_after_shape].
Qed.

Lemma subsection_rule_holds (marker next : str) (section : str -> result str)
    (field : str -> option str) (heading : str) (panel : str -> widget)
    (comparison : str) (l1 l2 : list widget) :
  section comparison =
    match field comparison with
    | Some t => Ok t
    | None => Raise IndexError
    end ->
  (if contains marker comparison
   then exists t, field comparison = Some t /\
                  section_cut marker next comparison t
   else field comparison = None) ->
  subsection_skipped heading panel (l1 ++ l2) ->
  subsection_rule marker next section heading panel comparison
    (l1 ++ rendered_section heading panel (field comparison) ++ l2).
Proof.
  intros Hsec Hfield Hskip. unfold subsection_rule.
  destruct (contains marker comparison).
  - destruct Hfield as (t & Ht & Hcut). rewrite Ht in Hsec |- *.
    exists t. repeat split; [exact Hsec|exact Hcut|]. now exists l1, l2.
  - rewrite Hfield. exact Hskip.
Qed.

Lemma field_between_cut (m n : char) (s : str) :
  if contains [m] s
  then exists t, text_between [m] [n] s = Some t /\ section_cut [m] [n] s t
  else text_between [m] [n] s = None.
Proof.
  destruct (contains [m] s) eqn:E; [now apply between_cut|].
  unfold text_between. now rewrite text_after_absent.
Qed.

Lemma field_after_cut (m : char) (s : str) :
  if contains [m] s
  then exists t, text_after [m] s = Some t /\ section_cut [m] [m] s t
  else text_after [m] s = None.
Proof.
  destruct (contains [m] s) eqn:E; [now apply after_cut|].
  now apply text_after_absent.
Qed.

Lemma matched_field (s : str) :
  if contains MATCHED s
  then exists t, text_between MATCHED MISSING s = Some t /\
                 section_cut MATCHED MISSING s t
  else text_between MATCHED MISSING s = None.
Proof.
  destruct markers_eq as (E1 & E2 & E3 & E4). rewrite E1, E2.
  apply field_between_cut.
Qed.

Lemma missing_field (s : str) :
  if contains MISSING s
  then exists t, text_between MISSING EXTRA s = Some t /\
                 section_cut MISSING EXTRA s t
  else text_between MISSING EXTRA s = None.
Proof.
  destruct markers_eq as (E1 & E2 & E3 & E4). rewrite E2, E3.
  apply field_between_cut.
Qed.

Lemma extra_field (s : str) :
  if contains EXTRA s
  then exists t, text_between EXTRA SCORE s = Some t /\
                 section_cut EXTRA SCORE s t
  else text_between EXTRA SCORE s = None.
Proof.
  destruct markers_eq as (E1 & E2 & E3 & E4). rewrite E3, E4.
  apply field_between_cut.
Qed.

Lemma score_field (s : str) :
  if contains SCORE s
  then exists t, text_after SCORE s = Some t /\ section_cut SCORE SCORE s t
  else text_after SCORE s = None.
Proof.
  destruct markers_eq as (E1 & E2 & E3 & E4). rewrite E4.
  apply field_after_cut.
Qed.

Ltac absurd_widget E :=
  first [ discriminate E
        | injection E as E; vm_compute in E; discriminate E ].

Ltac other_sections :=
  split; [|intros body]; intros Hin;
  repeat (progress (rewrite ?List.in_app_iff in Hin; cbn [In] in Hin));
  repeat (destruct Hin as [Hin|Hin]);
  try (apply rendered_section_In in Hin as [Hin|[body' Hin]]);
  try absurd_widget Hin; try contradiction.

(** C2, as amended.  For every comparison string the subsections are shown
    without an exception.  A subsection whose marker is absent is neither
    produced nor shown.  One whose marker is present is produced by its own
    split and shown: it holds the text after the leftmost occurrence of its
    marker up to the next occurrence of that marker or of the marker that
    follows it in the template, or to the end (so it runs on over the later
    subsections when the next marker is absent). *)
Theorem absent_marker_skips_subsection (comparison : str) (w : world) :
  exists shown,
    show_comparison (Some comparison) w =
      (World (files w) (screen w ++ shown), Ok tt) /\
    subsection_rule MATCHED MISSING matched_section
      (u "✅ Matching Skills") success comparison shown /\
    subsection_rule MISSING EXTRA missing_section
      (u "❌ Missing Skills") error comparison shown /\
    subsection_rule EXTRA SCORE extra_section
      (u "💡 Extra Skills") warning comparison shown /\
    subsection_rule SCORE SCORE score_section
      (u "📊 Match Score") info comparison shown.
Proof.
  eexists. split; [apply show_comparison_run|].
  destruct (truthy comparison) eqn:Et.
  - unfold rendered_comparison.
    set (head := markdown _ false).
    set (s1 := rendered_section _ success _).
    set (s2 := rendered_section _ error _).
    set (s3 := rendered_section _ warning _).
    set (s4 := rendered_section _ info _).
    repeat split.
    + apply (subsection_rule_holds _ _ _ (text_between MATCHED MISSING)
               _ _ _ [head] (s2 ++ s3 ++ s4));
        [apply matched_section_run|apply matched_field|].
      subst head s2 s3 s4. other_sections.
    + change (head :: s1 ++ s2 ++ s3 ++ s4)
        with ((head :: s1) ++ s2 ++ s3 ++ s4).
      apply (subsection_rule_holds _ _ _ (text_between MISSING EXTRA)
               _ _ _ (head :: s1) (s3 ++ s4));
        [apply missing_section_run|apply missing_field|].
      subst head s1 s3 s4. other_sections.
    + replace (head :: s1 ++ s2 ++ s3 ++ s4)
        with ((head :: s1 ++ s2) ++ s3 ++ s4)
        by (cbn [app]; now rewrite <- app_assoc).
      apply (subsection_rule_holds _ _ _ (text_between EXTRA SCORE)
               _ _ _ (head :: s1 ++ s2) s4);
        [apply extra_section_run|apply extra_field|].
      subst head s1 s2 s4. other_sections.
    + replace (head :: s1 ++ s2 ++ s3 ++ s4)
        with ((head :: s1 ++ s2 ++ s3) ++ s4 ++ [])
        by (cbn [app]; now rewrite <- !app_assoc, app_nil_r).
      apply (subsection_rule_holds _ _ _ (text_after SCORE)
               _ _ _ (head :: s1 ++ s2 ++ s3) []);
        [apply score_section_run|apply score_field|].
      subst head s1 s2 s3. other_sections.
  - destruct comparison; [|discriminate Et].
    destruct markers_eq as (-> & -> & -> & ->).
    repeat split; first [intros body [] | intros []].
Qed.

(** C2, as stated, fails: a subsection whose marker is present is affected
    by the absence of another marker.  Without ❌ the matching subsection
    runs on over the later ones. *)
Lemma absent_marker_changes_present_subsection :
  matched_section (u " ✅ Python ❌ AWS 💡 SQL 📊 50%") = Ok (u " Python ") /\
  contains MISSING (u " ✅ Python AWS 💡 SQL 📊 50%") = false /\
  matched_section (u " ✅ Python AWS 💡 SQL 📊 50%") =
    Ok (u " Python AWS 💡 SQL 📊 50%") /\
  In (success (u "Python AWS 💡 SQL 📊 50%"))
     (screen (fst (show_comparison (Some (u " ✅ Python AWS 💡 SQL 📊 50%"))
                     blank))).
Proof.
  repeat split; try (vm_compute; reflexivity).
  rewrite show_comparison_run. vm_compute. tauto.
Qed.

(** X7.  What each of the first three subsections holds, for any
    comparison text with its marker: the stretch right after the leftmost
    occurrence of the marker, up to the next occurrence of the same marker
    or of the marker that follows it in the template, or to the end when
    there is neither.  A repeated marker cuts its section short, and a
    missing next marker lets the section run on over the later ones. *)
Theorem section_between_markers (comparison : str) :
  (contains MATCHED comparison = true ->
   exists t, matched_section comparison = Ok t /\
             section_cut MATCHED MISSING comparison t) /\
  (contains MISSING comparison = true ->
   exists t, missing_section comparison = Ok t /\
             section_cut MISSING EXTRA comparison t) /\
  (contains EXTRA comparison = true ->
   exists t, extra_section comparison = Ok t /\
             section_cut EXTRA SCORE comparison t).
Proof.
  rewrite matched_section_run, missing_section_run, extra_section_run.
  destruct markers_eq as (-> & -> & -> & ->).
  repeat split; intros H.
  - destruct (between_cut _ 0x274C _ H) as (t & E & Hcut).
    exists t. split; [apply ok_of_some, E|exact Hcut].
  - destruct (between_cut _ 0x1F4A1 _ H) as (t & E & Hcut).
    exists t. split; [apply ok_of_some, E|exact Hcut].
  - destruct (between_cut _ 0x1F4CA _ H) as (t & E & Hcut).
    exists t. split; [apply ok_of_some, E|exact Hcut].
Qed.

(** X8.  The score subsection holds the text after the leftmost 📊 up to
    the next 📊, or to the end: what follows a second 📊 is not shown. *)
Theorem score_after_marker (comparison : str) :
  contains SCORE comparison = true ->
  exists t, score_section comparison = Ok t /\
            section_cut SCORE SCORE comparison t.
Proof.
  rewrite score_section_run. destruct markers_eq as (_ & _ & _ & ->).
  intros H. apply text_after_contains in H as (t & H).
  exists t. split; [apply ok_of_some, H|now apply text_after_shape].
Qed.

(** X9.  Cutting the response never raises and loses nothing: with the
    heading in the response, the resume information, the heading and the
    comparison put together are the response, and the resume information
    holds no heading; without it the resume information is the response
    and there is no comparison. *)
Theorem split_response_round_trip (content : str) :
  exists resume_info comparison,
    split_response content = Ok (resume_info, comparison) /\
    contains HEADING resume_info = false /\
    content = resume_info ++
              match comparison with
              | Some c => HEADING ++ c
              | None => []
              end /\
    (comparison = None <-> contains HEADING content = false).
Proof.
  rewrite split_response_run.
  destruct (partition HEADING content) as [[a b]|] eqn:E.
  - exists a, (Some b). split; [reflexivity|].
    pose proof (partition_inv _ _ _ _ E) as Hc.
    assert (contains HEADING content = true) as Hyes
      by (apply contains_spec; eauto).
    destruct HEADING_cons as (c & h & Hh). rewrite Hh in E.
    apply partition_leftmost in E. rewrite <- Hh in E.
    repeat split; try assumption; try discriminate. congruence.
  - exists content, None. apply partition_None in E.
    rewrite app_nil_r. repeat split; auto.
Qed.

Lemma marker_free_absent (x : str) :
  marker_free x = true ->
  contains MATCHED x = false /\ contains MISSING x = false /\
  contains EXTRA x = false /\ contains SCORE x = false.
Proof.
  unfold marker_free. cbn [forallb].
  rewrite !andb_true_iff, !negb_true_iff. tauto.
Qed.

(** X10.  A comparison text that is not empty and holds none of the four
    markers is shown as the comparison heading alone. *)
Theorem comparison_without_markers (pre comparison : str) (w : world) :
  contains HEADING pre = false ->
  comparison <> [] ->
  marker_free comparison = true ->
  show_response (pre ++ HEADING ++ comparison) w =
    (World (files w)
       (screen w ++
        [ markdown (u "## 📌 Extracted Resume Information") false;
          markdown pre true;
          markdown (u "## 🔍 Resume vs Job Description Skills") false ]),
     Ok tt).
Proof.
  intros Hpre Hne Hfree.
  apply marker_free_absent in Hfree as (H1 & H2 & H3 & H4).
  rewrite show_response_run. unfold rendered_response.
  rewrite (partition_first HEADING pre comparison HEADING_unbordered Hpre).
  assert (truthy comparison = true) as -> by now destruct comparison.
  unfold rendered_comparison, text_between.
  rewrite !text_after_absent by assumption. reflexivity.
Qed.

End PartitionerExtras.

Lemma score_after_marker_sample :
  exists t, score_section (u "📊 50% 📊 (of 4)") = Ok t /\
            section_cut SCORE SCORE (u "📊 50% 📊 (of 4)") t.
Proof. apply score_after_marker. vm_compute. reflexivity. Defined.

Lemma comparison_without_markers_sample :
  screen (fst (show_response
                 (u "### 🛠 Skills" ++ HEADING ++ u " No JD provided.")
                 blank)) =
  [ markdown (u "## 📌 Extracted Resume Information") false;
    markdown (u "### 🛠 Skills") true;
    markdown (u "## 🔍 Resume vs Job Description Skills") false ].
Proof.
  rewrite (comparison_without_markers (u "### 🛠 Skills")
             (u " No JD provided.") blank);
    [reflexivity | vm_compute; reflexivity | discriminate
    | vm_compute; reflexivity].
Defined.

(** ** Further properties of the loader and of [main] *)

Section ProgramExtras.

Import PyFacts MoreFacts.

Variable realpath : str -> str.
Variable open_error : gmap str (list N) -> str -> option exn.
Variable PyPDFLoader_load : gmap str (list N) -> str -> result (list Document).
Variable Docx2txtLoader_load : gmap str (list N) -> str -> result (list Document).
Variable TextLoader_load : gmap str (list N) -> str -> result (list Document).
Variable llm_invoke : str -> result str.




(** The files after a run of [main]. *)
Lemma main_files (user : session) (w : world) :
  files (fst (main realpath open_error PyPDFLoader_load Docx2txtLoader_load
                TextLoader_load llm_invoke user w)) =
  match upload user with
  | Some f =>
    match open_error (files w) (temp_path f) with
    | Some _ => files w
    | None => <[realpath (temp_path f) := getbuffer f]> (files w)
    end
  | None => files w
  end.
Proof.
  rewrite main_run. destruct (upload user) as [f|]; [|reflexivity].
  cbv zeta. destruct (open_error (files w) (temp_path f)); [reflexivity|].
  destruct (load_outcome _ _ _ f _) as [docs|e]; [|reflexivity].
  destruct (not_docs docs); [reflexivity|].
  destruct (analyze user); reflexivity.
Qed.


(** X13.  A run of [main] adds at most one file, and running it again on
    the same session adds none: the temporary file is overwritten, whatever
    it held. *)
Theorem main_rerun_files (user : session) (w : world) :
  (size (files (fst (main realpath open_error PyPDFLoader_load
                       Docx2txtLoader_load TextLoader_load llm_invoke
                       user w)))
   <= S (size (files w)))%nat /\
  files (fst (main realpath open_error PyPDFLoader_load Docx2txtLoader_load
                TextLoader_load llm_invoke user
                (fst (main realpath open_error PyPDFLoader_load
                        Docx2txtLoader_load TextLoader_load llm_invoke
                        user w)))) =
  files (fst (main realpath open_error PyPDFLoader_load Docx2txtLoader_load
                TextLoader_load llm_invoke user w)).
Proof.
  pose proof (main_files user w) as E1.
  rewrite (main_files user (fst (main realpath open_error PyPDFLoader_load
                                   Docx2txtLoader_load TextLoader_load
                                   llm_invoke user w))).
  destruct (upload user) as [f|]; [|rewrite E1; split; [lia|reflexivity]].
  destruct (open_error (files w) (temp_path f)) eqn:Hopen.
  - rewrite E1. split; [lia|]. now rewrite Hopen.
  - split.
    + rewrite E1. destruct (files w !! realpath (temp_path f)) eqn:E.
      * rewrite map_size_insert_Some by eauto. lia.
      * rewrite map_size_insert_None by exact E. lia.
    + rewrite E1.
      destruct (open_error
                  (<[realpath (temp_path f) := getbuffer f]> (files w))
                  (temp_path f)); [reflexivity|apply insert_insert_eq].
Qed.




(** X16.  When the model raises, [main] raises the same exception and
    nothing of a response is shown: the screen ends with the spinner of the
    call. *)
Theorem llm_failure_propagates (user : session) (f : UploadedFile)
    (docs : list Document) (prompt : str) (w : world) (e : exn) :
  upload user = Some f ->
  snd (load_resume_docs realpath open_error PyPDFLoader_load
         Docx2txtLoader_load TextLoader_load f w) = Ok (Some docs) ->
  not_docs (Some docs) = false ->
  analyze user = true ->
  formatted_prompt (full_text_of docs) (job_description user) = Ok prompt ->
  llm_invoke prompt = Raise e ->
  main realpath open_error PyPDFLoader_load Docx2txtLoader_load
    TextLoader_load llm_invoke user w =
    (World (<[realpath (temp_path f) := getbuffer f]> (files w))
       (screen w ++ page_top ++ [spinner (u "Loading resume...")] ++
        input_widgets docs ++ [spinner (u "Sending to LLM...")]),
     Raise e).
Proof.
  intros Hf Hload Hdocs Hclick Hprompt Hllm.
  apply load_resume_docs_ok in Hload as [Hopen Hload].
  rewrite main_run, Hf. cbv zeta. rewrite Hopen, Hload, Hdocs, Hclick.
  unfold analysis_outcome. cbn [from_option id]. rewrite Hprompt, Hllm.
  cbn [fst snd]. now rewrite <- !app_assoc.
Qed.

(** X21.  When [open] raises for the temporary file, whatever the
    extension, [main] raises the same error: nothing is written, no loader
    runs, and nothing is shown after the loading spinner, no error message
    either. *)
Theorem open_failure_propagates (user : session) (f : UploadedFile)
    (w : world) (e : exn) :
  upload user = Some f ->
  open_error (files w) (temp_path f) = Some e ->
  load_resume_docs realpath open_error PyPDFLoader_load Docx2txtLoader_load
    TextLoader_load f w = (w, Raise e) /\
  main realpath open_error PyPDFLoader_load Docx2txtLoader_load
    TextLoader_load llm_invoke user w =
    (World (files w)
       (screen w ++ page_top ++ [spinner (u "Loading resume...")]),
     Raise e).
Proof.
  intros Hf Hopen. split.
  - now rewrite load_resume_docs_run, Hopen.
  - rewrite main_run, Hf. cbv zeta. now rewrite Hopen.
Qed.

End ProgramExtras.

(** X17.  Until the button is pressed neither the model nor the job
    description matters: two runs on the same upload and files give the
    same files, screen and result, whatever the model and the pasted
    text. *)
Theorem main_without_button
    (realpath : str -> str)
    (open_error : gmap str (list N) -> str -> option exn)
    (pdf docx txt : gmap str (list N) -> str -> result (list Document))
    (llm llm' : str -> result str) (user user' : session) (w : world) :
  upload user = upload user' ->
  analyze user = false ->
  analyze user' = false ->
  main realpath open_error pdf docx txt llm user w =
  main realpath open_error pdf docx txt llm' user' w.
Proof.
  intros Hu Ha Ha'. rewrite !main_run, <- Hu, Ha, Ha'. reflexivity.
Qed.

(** X18.  The prompt does not tell the resume text from the job
    description: text that holds the template's own separator can be cut
    at either place, and an empty job description gives the prompt of the
    job description ["No JD provided"]. *)
Theorem formatted_prompt_ambiguous (text a b : str) :
  b <> [] ->
  formatted_prompt (text ++ PROMPT_MID ++ a) b =
    formatted_prompt text (a ++ PROMPT_MID ++ b) /\
  formatted_prompt text [] = formatted_prompt text (u "No JD provided").
Proof.
  intros Hb. rewrite !formatted_prompt_shape. split; [|reflexivity].
  assert (truthy b = true) as -> by now destruct b.
  assert (truthy (a ++ PROMPT_MID ++ b) = true) as -> by now destruct a.
  now rewrite <- !app_assoc.
Qed.





Lemma llm_failure_propagates_sample :
  snd (main same_path flat_open_error failing_loader failing_loader
         plain_loader (fixed_failure (External 7))
         (visit txt_upload [] true) blank) =
  Raise (External 7).
Proof.
  rewrite (llm_failure_propagates same_path flat_open_error failing_loader
             failing_loader plain_loader (fixed_failure (External 7))
             (visit txt_upload [] true) txt_upload
             [ {| page_content := u "John Doe, Python, SQL" |} ]
             _ blank (External 7)
             eq_refl ltac:(vm_compute; reflexivity) eq_refl eq_refl
             (formatted_prompt_shape _ _) eq_refl).
  reflexivity.
Defined.

Lemma open_failure_propagates_sample :
  snd (main same_path flat_open_error failing_loader failing_loader
         plain_loader (fixed_llm []) (visit nested_upload [] false) blank) =
  Raise (OSError 2).
Proof.
  rewrite (proj2 (open_failure_propagates same_path flat_open_error
                    failing_loader failing_loader plain_loader (fixed_llm [])
                    (visit nested_upload [] false) nested_upload blank
                    (OSError 2) eq_refl ltac:(vm_compute; reflexivity))).
  reflexivity.
Defined.

Lemma main_without_button_sample :
  main same_path flat_open_error failing_loader failing_loader plain_loader (fixed_llm [])
    (visit txt_upload [] false) blank =
  main same_path flat_open_error failing_loader failing_loader plain_loader
    (fixed_failure (External 7)) (visit txt_upload (u "Python, AWS") false)
    blank.
Proof. apply main_without_button; reflexivity. Defined.

Lemma formatted_prompt_ambiguous_sample :
  formatted_prompt (u "John Doe" ++ PROMPT_MID ++ u "Python") (u "AWS") =
  formatted_prompt (u "John Doe") (u "Python" ++ PROMPT_MID ++ u "AWS").
Proof.
  apply (formatted_prompt_ambiguous (u "John Doe") (u "Python") (u "AWS")).
  discriminate.
Defined.

(** ** Rejected names and the size of the display *)

Section MoreExtras.

Import PyFacts MoreFacts.

Variable realpath : str -> str.
Variable open_error : gmap str (list N) -> str -> option exn.
Variable PyPDFLoader_load : gmap str (list N) -> str -> result (list Document).
Variable Docx2txtLoader_load : gmap str (list N) -> str -> result (list Document).
Variable TextLoader_load : gmap str (list N) -> str -> result (list Document).
Variable llm_invoke : str -> result str.



Lemma rendered_section_length (heading : str) (panel : str -> widget)
    (text : option str) :
  (length (rendered_section heading panel text) <= 2)%nat.
Proof. destruct text; simpl; lia. Qed.

(** X20.  Showing a response never raises and never touches the files,
    whatever the model wrote: the screen gets the resume heading, the
    resume information, and at most nine more calls (the comparison
    heading and up to four subsections of a heading and a panel). *)
Theorem show_response_never_raises (content : str) (w : world) :
  exists resume_info shown,
    show_response content w =
      (World (files w)
         (screen w ++
          [ markdown (u "## 📌 Extracted Resume Information") false;
            markdown resume_info true ] ++ shown),
       Ok tt) /\
    (length shown <= 9)%nat.
Proof.
  rewrite show_response_run. unfold rendered_response.
  destruct (partition HEADING content) as [[a b]|].
  - exists a. eexists. split; [reflexivity|].
    destruct (truthy b); [|simpl; lia].
    unfold rendered_comparison. cbn [length]. rewrite !length_app.
    pose proof (rendered_section_length (u "✅ Matching Skills") success
                  (text_between MATCHED MISSING b)).
    pose proof (rendered_section_length (u "❌ Missing Skills") error
                  (text_between MISSING EXTRA b)).
    pose proof (rendered_section_length (u "💡 Extra Skills") warning
                  (text_between EXTRA SCORE b)).
    pose proof (rendered_section_length (u "📊 Match Score") info
                  (text_after SCORE b)).
    lia.
  - exists content, []. split; [reflexivity|simpl; lia].
Qed.

End MoreExtras.

